(** * College Club App API: a shallow embedding of [main.py]

    The handlers of [main.py] are embedded as computations in a small
    state-and-exception monad over the document store.  The three
    collections [user], [club] and [event] are lists in insertion order,
    the order in which [find_one] scans them. *)

From Stdlib Require Import Ascii String.
From stdpp Require Import base numbers option gmap fin_maps strings list.

Open Scope string_scope.
Open Scope list_scope.

(** ** Values and documents *)

(** A BSON ObjectId, modelled by its position in the sequence of ids the
    driver generates. *)
Abbreviation ObjectId := N (only parsing).

(** A [datetime], identified by the text [str] renders for it. *)
Record datetime := { dt_text : string }.

(** The Python values that occur in documents and JSON responses. *)
Inductive value :=
  | VNone
  | VBool (b : bool)
  | VStr (s : string)
  | VOid (o : ObjectId)
  | VDate (d : datetime)
  | VList (l : list string).

(** A Python [dict] with string keys. *)
Abbreviation pydict := (gmap string value) (only parsing).

(** A stored document of the [club] and [event] collections: the
    database-native [_id] and the remaining fields. *)
Record Document := { doc_id : ObjectId; doc_fields : pydict }.

(** A stored document of the [user] collection.  A field read with
    [dict.get] in [main.py] may be absent from the stored document. *)
Record User := {
  u_id : ObjectId;
  u_name : option string;
  u_email : option string;
  u_password_hash : option string;
  u_is_admin : option bool;
  u_sessions : list string
}.

(** The state of the database: the [user] collection, which [main.py]
    reads and updates field by field through the driver, the collections
    reached through the persistence gateway, by name, and the next
    ObjectId of the driver. *)
Record Database := {
  user : list User;
  collections : gmap string (list Document);
  next_oid : ObjectId
}.

(** ** Exceptions and the handler monad *)

Inductive exn :=
  | HTTPException (status_code : nat) (detail : string)
  | KeyError (key : string)
  | Exception (msg : string).

Inductive outcome (A : Type) :=
  | Return (a : A)
  | Raise (e : exn).
Arguments Return {A} a.
Arguments Raise {A} e.

Definition handler (A : Type) : Type := Database → outcome A * Database.

#[global] Instance outcome_ret : MRet outcome := λ A a, Return a.
#[global] Instance outcome_bind : MBind outcome := λ A B k m,
  match m with
  | Return a => k a
  | Raise e => Raise e
  end.

#[global] Instance handler_ret : MRet handler := λ A a db, (Return a, db).
#[global] Instance handler_bind : MBind handler := λ A B k m db,
  match m db with
  | (Return a, db') => k a db'
  | (Raise e, db') => (Raise e, db')
  end.

Definition raise {A} (e : exn) : handler A := λ db, (Raise e, db).

(** [try: ... except Exception as e: ...] *)
Definition try_except {A} (body : outcome A) (except : exn → outcome A) : outcome A :=
  match body with
  | Return a => Return a
  | Raise e => except e
  end.

(** ** Python builtins *)

Definition hex_digit (n : N) : ascii :=
  default "0"%char (String.get (N.to_nat n) "0123456789abcdef").

Fixpoint hex_digits (k : nat) (n : N) (acc : string) : string :=
  match k with
  | O => acc
  | S k' => hex_digits k' (n / 16)%N (String (hex_digit (n mod 16)%N) acc)
  end.

(** [str] of an ObjectId: 24 hexadecimal digits. *)
Definition str_oid (o : ObjectId) : string := hex_digits 24 o "".

Definition repr_str (s : string) : string := "'" +:+ s +:+ "'".

Fixpoint join (sep : string) (l : list string) : string :=
  match l with
  | [] => ""
  | [s] => s
  | s :: rest => s +:+ sep +:+ join sep rest
  end.

(** [str(v)]; the text of a list quotes its elements without escapes. *)
Definition py_str (v : value) : string :=
  match v with
  | VNone => "None"
  | VBool true => "True"
  | VBool false => "False"
  | VStr s => s
  | VOid o => str_oid o
  | VDate d => dt_text d
  | VList l => "[" +:+ join ", " (map repr_str l) +:+ "]"
  end.

(** [str(e)] for an exception. *)
Definition str_exn (e : exn) : string :=
  match e with
  | HTTPException code detail => detail
  | KeyError k => repr_str k
  | Exception msg => msg
  end.

(** Python's value of an optional string: [None] or the string. *)
Definition opt_str (o : option string) : value :=
  match o with
  | Some s => VStr s
  | None => VNone
  end.

(** [token or ""] *)
Definition or_empty (token : option string) : string :=
  match token with
  | Some t => if bool_decide (t = "") then "" else t
  | None => ""
  end.

(** [d.pop(key)] *)
Definition dict_pop (key : string) (d : pydict) : outcome (value * pydict) :=
  match d !! key with
  | Some v => Return (v, delete key d)
  | None => Raise (KeyError key)
  end.

(** ** The database driver *)

(** [find_one(query)]: the first document that matches. *)
Fixpoint find_one {D} (query : D → bool) (coll : list D) : option D :=
  match coll with
  | [] => None
  | d :: rest => if query d then Some d else find_one query rest
  end.

(** [update_one(query, update)]: the update applied to the first document
    that matches, if any. *)
Fixpoint update_one {D} (query : D → bool) (update : D → D) (coll : list D) : list D :=
  match coll with
  | [] => []
  | d :: rest =>
      if query d then update d :: rest else d :: update_one query update rest
  end.

(** The queries [{"email": email}], [{"sessions": token}] and [{"_id": id}]. *)
Definition by_email (email : string) (u : User) : bool :=
  bool_decide (u_email u = Some email).
Definition by_session (token : string) (u : User) : bool :=
  bool_decide (token ∈ u_sessions u).
Definition by_id (id : ObjectId) (u : User) : bool :=
  bool_decide (u_id u = id).

Definition set_sessions (l : list string) (u : User) : User :=
  {| u_id := u_id u; u_name := u_name u; u_email := u_email u;
     u_password_hash := u_password_hash u; u_is_admin := u_is_admin u;
     u_sessions := l |}.

(** The update [{"$push": {"sessions": token}}]. *)
Definition push_session (token : string) (u : User) : User :=
  set_sessions (u_sessions u ++ [token]) u.

(** The update [{"$pull": {"sessions": token}}]: every element equal to
    [token] leaves the array; a [None] matches no string. *)
Definition pull_session (token : option string) (u : User) : User :=
  match token with
  | Some t => set_sessions (filter (λ s, s ≠ t) (u_sessions u)) u
  | None => u
  end.

Definition set_user (us : list User) (db : Database) : Database :=
  {| user := us; collections := collections db; next_oid := next_oid db |}.

(** [db["user"].find_one(query)] *)
Definition user_find_one (query : User → bool) : handler (option User) :=
  λ db, (Return (find_one query (user db)), db).

(** [db["user"].count_documents({})] *)
Definition user_count_documents : handler nat :=
  λ db, (Return (length (user db)), db).

(** The fields of a user document before the driver gives it an [_id]. *)
Record user_doc := {
  ud_name : string;
  ud_email : string;
  ud_password_hash : string;
  ud_is_admin : bool;
  ud_sessions : list string
}.

(** [db["user"].insert_one(doc).inserted_id] *)
Definition user_insert_one (doc : user_doc) : handler ObjectId :=
  λ db,
    let id := next_oid db in
    let u := {| u_id := id; u_name := Some (ud_name doc);
                u_email := Some (ud_email doc);
                u_password_hash := Some (ud_password_hash doc);
                u_is_admin := Some (ud_is_admin doc);
                u_sessions := ud_sessions doc |} in
    (Return id,
     {| user := user db ++ [u]; collections := collections db;
        next_oid := N.succ id |}).

(** [db["user"].update_one(query, update)] *)
Definition user_update_one (query : User → bool) (update : User → User) : handler unit :=
  λ db, (Return (), set_user (update_one query update (user db)) db).

(** The documents of a named collection; a collection that was never
    written to is empty. *)
Definition collection (name : string) (db : Database) : list Document :=
  default [] (collections db !! name).

(** The Python dict the driver returns for a stored document. *)
Definition to_dict (d : Document) : pydict :=
  <["_id" := VOid (doc_id d)]> (doc_fields d).

(** Modelled from the spec: the write of [create_document], whose module
    is not part of the sources.  The database after a document with the
    fields [data] is stored in a named collection, under the next
    ObjectId; no other collection changes. *)
Definition stored (name : string) (data : pydict) (db : Database) : Database :=
  {| user := user db;
     collections :=
       <[name := collection name db ++ [{| doc_id := next_oid db; doc_fields := data |}]]>
         (collections db);
     next_oid := N.succ (next_oid db) |}.

(** Modelled from the spec: [create_document] of the persistence gateway,
    whose module is not part of the sources.  "insert(collection, document)
    -> id": the document is stored, under a freshly generated id, and the
    id is returned, as a string. *)
Definition create_document (collection_name : string) (data : pydict) : handler string :=
  λ db, (Return (str_oid (next_oid db)), stored collection_name data db).

(** Modelled from the spec: [get_documents] of the persistence gateway,
    whose module is not part of the sources.  "findAll(collection) ->
    sequence of documents": every stored document of the collection, each
    a dict with its database-native [_id]. *)
Definition get_documents (collection_name : string) : handler (list pydict) :=
  λ db, (Return (map to_dict (collection collection_name db)), db).

(** An exception-only computation run inside a handler. *)
Definition lift {A} (m : outcome A) : handler A := λ db, (m, db).

(** [for it in items: ...] with a body that rebinds one dict. *)
Fixpoint for_each {A B} (body : A → outcome B) (items : list A) : outcome (list B) :=
  match items with
  | [] => Return []
  | it :: rest =>
      match body it with
      | Return it' =>
          match for_each body rest with
          | Return rest' => Return (it' :: rest')
          | Raise e => Raise e
          end
      | Raise e => Raise e
      end
  end.

(** The handle [db] of the database module as [test_database] sees it:
    [None], or a handle whose truth test, [list_collection_names()] and
    [name] each return or raise. *)
Record DbHandle := {
  db_bool : outcome bool;
  db_list_collection_names : outcome (list string);
  db_name : outcome string
}.

(** ** Request and response models *)

Record RegisterRequest := {
  reg_name : string;
  reg_email : string;
  reg_password : string
}.

Record LoginRequest := {
  login_email : string;
  login_password : string
}.

Record ClubRequest := {
  club_name : string;
  club_description : option string
}.

Record EventRequest := {
  ev_title : string;
  ev_description : option string;
  ev_date : datetime;
  ev_club_id : option string
}.

Record AuthResponse := {
  resp_token : string;
  resp_is_admin : bool;
  resp_name : string;
  resp_email : string
}.

(** [SESSION_TTL_MINUTES]: defined, and read by no handler. *)
Definition SESSION_TTL_MINUTES : nat := 60 * 24.

(** ** The application *)

Section App.

(** [hashlib.sha256(...).hexdigest()] and [os.getenv]. *)
Variable sha256_hexdigest : string → string.
Variable getenv : string → option string.

Definition hash_password (password : string) : string :=
  let salt := default "static_salt" (getenv "PASSWORD_SALT") in
  sha256_hexdigest (salt +:+ ":" +:+ password).

Definition get_user_by_email (email : string) : handler (option User) :=
  user_find_one (by_email email).

Definition get_user_by_token (token : string) : handler (option User) :=
  if bool_decide (token = "") then mret None
  else user_find_one (by_session token).

Definition require_auth (token : option string) : handler User :=
  match token with
  | None => raise (HTTPException 401 "Missing token")
  | Some t =>
      user ← get_user_by_token t;
      match user with
      | None => raise (HTTPException 401 "Invalid token")
      | Some u => mret u
      end
  end.

Definition require_admin (token : option string) : handler User :=
  user ← require_auth token;
  if negb (default false (u_is_admin user))
  then raise (HTTPException 403 "Admin only")
  else mret user.

Definition read_root : pydict :=
  {[ "message" := VStr "College Club API running" ]}.

(** [new_session_token] is the token that [secrets.token_urlsafe(32)]
    returns to this call. *)
Definition register (new_session_token : string) (body : RegisterRequest)
  : handler AuthResponse :=
  existing ← get_user_by_email (reg_email body);
  match existing with
  | Some _ => raise (HTTPException 400 "Email already registered")
  | None =>
      n ← user_count_documents;
      let is_first_user := Nat.eqb n 0 in
      let user_doc := {| ud_name := reg_name body;
                         ud_email := reg_email body;
                         ud_password_hash := hash_password (reg_password body);
                         ud_is_admin := is_first_user;
                         ud_sessions := [] |} in
      inserted_id ← user_insert_one user_doc;
      let token := new_session_token in
      user_update_one (by_id inserted_id) (push_session token);;
      mret {| resp_token := token; resp_is_admin := is_first_user;
              resp_name := ud_name user_doc; resp_email := ud_email user_doc |}
  end.

Definition login (new_session_token : string) (body : LoginRequest)
  : handler AuthResponse :=
  user ← get_user_by_email (login_email body);
  match user with
  | None => raise (HTTPException 401 "Invalid credentials")
  | Some u =>
      if bool_decide (u_password_hash u ≠ Some (hash_password (login_password body)))
      then raise (HTTPException 401 "Invalid credentials")
      else
        let token := new_session_token in
        user_update_one (by_id (u_id u)) (push_session token);;
        mret {| resp_token := token;
                resp_is_admin := default false (u_is_admin u);
                resp_name := default "" (u_name u);
                resp_email := default "" (u_email u) |}
  end.

Definition logout (token : option string) : handler pydict :=
  user ← get_user_by_token (or_empty token);
  match user with
  | Some u => user_update_one (by_id (u_id u)) (pull_session token)
  | None => mret ()
  end;;
  mret {[ "success" := VBool true ]}.

(** The loop body of the two list handlers:
    [it["id"] = str(it.pop("_id"))]. *)
Definition rename_id (it : pydict) : outcome pydict :=
  '(v, it') ← dict_pop "_id" it;
  mret (<["id" := VStr (py_str v)]> it').

Definition list_clubs : handler (list pydict) :=
  items ← get_documents "club";
  lift (for_each rename_id items).

Definition create_club (body : ClubRequest) (token : option string) : handler pydict :=
  user ← get_user_by_token (or_empty token);
  match user with
  | None => raise (HTTPException 403 "Admin only")
  | Some u =>
      if negb (default false (u_is_admin u))
      then raise (HTTPException 403 "Admin only")
      else
        let data : pydict :=
          {[ "name" := VStr (club_name body);
             "description" := opt_str (club_description body);
             "created_by" := VStr (py_str (opt_str (u_email u))) ]} in
        club_id ← create_document "club" data;
        mret (data ∪ {[ "id" := VStr club_id ]})
  end.

Definition list_events : handler (list pydict) :=
  items ← get_documents "event";
  lift (for_each rename_id items).

Definition create_event (body : EventRequest) (token : option string) : handler pydict :=
  user ← get_user_by_token (or_empty token);
  match user with
  | None => raise (HTTPException 403 "Admin only")
  | Some u =>
      if negb (default false (u_is_admin u))
      then raise (HTTPException 403 "Admin only")
      else
        let data : pydict :=
          {[ "title" := VStr (ev_title body);
             "description" := opt_str (ev_description body);
             "date" := VDate (ev_date body);
             "club_id" := opt_str (ev_club_id body);
             "created_by" := VStr (py_str (opt_str (u_email u))) ]} in
        event_id ← create_document "event" data;
        mret (data ∪ {[ "id" := VStr event_id ]})
  end.

(** The truth test [if db]. *)
Definition db_truth (db : option DbHandle) : outcome bool :=
  match db with
  | None => Return false
  | Some h => db_bool h
  end.

(** The truth of [os.getenv(key)]: set, and not the empty string. *)
Definition getenv_truth (key : string) : bool :=
  match getenv key with
  | Some s => negb (bool_decide (s = ""))
  | None => false
  end.

(** The body of the [try] block of [test_database]: the dict that
    [response.update] receives, unless a step raises first. *)
Definition test_database_probe (db : option DbHandle) : outcome pydict :=
  collections ← (b ← db_truth db;
                 match (b : bool), db with
                 | true, Some h => db_list_collection_names h
                 | _, _ => Return []
                 end);
  b1 ← db_truth db;
  let database := if (b1 : bool) then "✅ Connected & Working" else "❌ Not Available" in
  let database_url := if getenv_truth "DATABASE_URL" then "✅ Set" else "❌ Not Set" in
  database_name ← (b ← db_truth db;
                   match (b : bool), db with
                   | true, Some h => n ← db_name h; Return (VStr n)
                   | _, _ => Return VNone
                   end);
  b2 ← db_truth db;
  let connection_status := if (b2 : bool) then "Connected" else "Not Connected" in
  Return ({[ "database" := VStr database;
             "database_url" := VStr database_url;
             "database_name" := database_name;
             "connection_status" := VStr connection_status;
             "collections" := VList (take 10 collections) ]} : pydict).

(** [response.update(d)]: the keys of [d] win. *)
Definition test_database (db : option DbHandle) : outcome pydict :=
  let response : pydict := {[ "backend" := VStr "✅ Running" ]} in
  try_except
    (update ← test_database_probe db;
     Return (update ∪ response))
    (λ e,
       Return ({[ "database" := VStr ("❌ Error: " +:+ substring 0 50 (str_exn e)) ]}
               ∪ response)).

(** ** Requests *)

Inductive request :=
  | ReadRoot
  | Register (body : RegisterRequest)
  | Login (body : LoginRequest)
  | Logout (token : option string)
  | ListClubs
  | CreateClub (body : ClubRequest) (token : option string)
  | ListEvents
  | CreateEvent (body : EventRequest) (token : option string)
  | TestDatabase.

Inductive response :=
  | Auth (r : AuthResponse)
  | Json (d : pydict)
  | JsonList (l : list pydict).

(** One request served; [handle_db] is the module's database handle and
    [new_session_token] the token this request draws, if it draws one. *)
Definition handle (handle_db : option DbHandle) (new_session_token : string)
    (req : request) : handler response :=
  match req with
  | ReadRoot => mret (Json read_root)
  | Register body => r ← register new_session_token body; mret (Auth r)
  | Login body => r ← login new_session_token body; mret (Auth r)
  | Logout token => d ← logout token; mret (Json d)
  | ListClubs => l ← list_clubs; mret (JsonList l)
  | CreateClub body token => d ← create_club body token; mret (Json d)
  | ListEvents => l ← list_events; mret (JsonList l)
  | CreateEvent body token => d ← create_event body token; mret (Json d)
  | TestDatabase => d ← lift (test_database handle_db); mret (Json d)
  end.

End App.

(** A token resolves to a user when the lookup of the handlers,
    [get_user_by_token(token or "")], returns that user. *)
Definition resolves (token : option string) (db : Database) (u : User) : Prop :=
  get_user_by_token (or_empty token) db = (Return (Some u), db).

(** A response item shows a stored document with its id renamed: no
    key ["_id"], the text of the native id under ["id"], and every other
    field as stored. *)
Definition id_renamed (d : Document) (it : pydict) : Prop :=
  it !! "_id" = None ∧
  it !! "id" = Some (VStr (py_str (VOid (doc_id d)))) ∧
  ∀ k, k ≠ "_id" → k ≠ "id" → it !! k = to_dict d !! k.

(** The HTTP status the framework answers with: 200 for a returned value,
    the code of an [HTTPException], 500 for any other exception. *)
Definition status_of {A} (o : outcome A) : nat :=
  match o with
  | Return _ => 200
  | Raise (HTTPException code _) => code
  | Raise _ => 500
  end.

(** ** The invariant the database keeps: ids are unique in a collection
    and older than the next id. *)

Definition ids_ok (ids : list ObjectId) (next : ObjectId) : Prop :=
  NoDup ids ∧ Forall (λ i, (i < next)%N) ids.

Definition wf (db : Database) : Prop :=
  ids_ok (map u_id (user db)) (next_oid db) ∧
  map_Forall (λ _ docs, ids_ok (map doc_id docs) (next_oid db)) (collections db).

(** A token is held by a user when it is in the user's sessions list. *)
Definition holds (u : User) (token : string) : Prop := token ∈ u_sessions u.

(** [u] is the first document of the collection that satisfies [P]. *)
Definition first_with (P : User → Prop) (us : list User) (u : User)
    (before after : list User) : Prop :=
  us = before ++ u :: after ∧ P u ∧ Forall (λ v, ¬ P v) before.

(** A run of registrations, one after the other: for each one, the state
    before, the outcome and the state after. *)
Fixpoint register_run (sha : string → string) (env : string → option string)
    (reqs : list (string * RegisterRequest)) (db : Database)
  : list (Database * outcome AuthResponse * Database) :=
  match reqs with
  | [] => []
  | (tok, body) :: rest =>
      let '(out, db') := register sha env tok body db in
      (db, out, db') :: register_run sha env rest db'
  end.

(** ** Sample data *)

Definition demo_sha (s : string) : string := "#" +:+ s.
Definition demo_env (key : string) : option string := None.

Definition empty_db : Database :=
  {| user := []; collections := ∅; next_oid := 0%N |}.

Definition alice : User :=
  {| u_id := 0%N; u_name := Some "Alice"; u_email := Some "alice@example.org";
     u_password_hash := Some "#static_salt:pw-a"; u_is_admin := Some true;
     u_sessions := ["tok-a1"; "tok-a2"] |}.

Definition bob : User :=
  {| u_id := 1%N; u_name := Some "Bob"; u_email := Some "bob@example.org";
     u_password_hash := Some "#static_salt:pw-b"; u_is_admin := Some false;
     u_sessions := ["tok-b1"] |}.

(** A user document stored without the [is_admin] field. *)
Definition carol : User :=
  {| u_id := 2%N; u_name := Some "Carol"; u_email := Some "carol@example.org";
     u_password_hash := Some "#static_salt:pw-c"; u_is_admin := None;
     u_sessions := ["tok-c1"] |}.

(** A user document whose sessions list holds the empty string. *)
Definition dave : User :=
  {| u_id := 3%N; u_name := Some "Dave"; u_email := Some "dave@example.org";
     u_password_hash := Some "#static_salt:pw-d"; u_is_admin := Some false;
     u_sessions := [""; "tok-d1"] |}.

Definition chess_club : Document :=
  {| doc_id := 4%N;
     doc_fields := {[ "name" := VStr "Chess"; "description" := VNone;
                      "created_by" := VStr "alice@example.org" ]} |}.

Definition demo_db : Database :=
  {| user := [alice; bob; carol];
     collections := {[ "club" := [chess_club] ]};
     next_oid := 5%N |}.

Definition dave_db : Database :=
  {| user := [alice; dave]; collections := ∅; next_oid := 5%N |}.

Definition failing_handle : DbHandle :=
  {| db_bool := Raise (Exception "Database objects do not implement truth value testing");
     db_list_collection_names := Return ["user"; "club"];
     db_name := Return "clubs" |}.

Definition demo_registrations : list (string * RegisterRequest) :=
  [ ("tok-1", {| reg_name := "Erin"; reg_email := "erin@example.org";
                 reg_password := "pw-e" |});
    ("tok-2", {| reg_name := "Frank"; reg_email := "frank@example.org";
                 reg_password := "pw-f" |}) ].

Definition bob_again : RegisterRequest :=
  {| reg_name := "Robert"; reg_email := "bob@example.org"; reg_password := "x" |}.

Definition grace : RegisterRequest :=
  {| reg_name := "Grace"; reg_email := "grace@example.org"; reg_password := "pw-g" |}.

Definition alice_login : LoginRequest :=
  {| login_email := "alice@example.org"; login_password := "pw-a" |}.

Definition carol_login : LoginRequest :=
  {| login_email := "carol@example.org"; login_password := "pw-c" |}.

Definition go_club : ClubRequest :=
  {| club_name := "Go"; club_description := Some "Board games" |}.

(** ** Facts about states and runs *)

(** Two user documents with the same [_id], name, email, password hash
    and [is_admin]: they differ in their sessions at most. *)
Definition same_profile (u v : User) : Prop :=
  u_id v = u_id u ∧ u_name v = u_name u ∧ u_email v = u_email u ∧
  u_password_hash v = u_password_hash u ∧ u_is_admin v = u_is_admin u.

(** No two user documents have the same email. *)
Definition emails_unique (db : Database) : Prop :=
  NoDup (omap u_email (user db)).

(** The first user document is an admin, and no other one is. *)
Definition only_first_admin (db : Database) : Prop :=
  match user db with
  | [] => True
  | first :: others =>
      u_is_admin first = Some true ∧
      Forall (λ u, u_is_admin u = Some false) others
  end.

(** The states that requests, served one after the other, reach from the
    empty database. *)
Inductive reachable (sha : string → string) (env : string → option string)
  : Database → Prop :=
  | reachable_empty : reachable sha env empty_db
  | reachable_step hdb tok req db :
      reachable sha env db →
      reachable sha env (handle sha env hdb tok req db).2.

Definition chess_night : EventRequest :=
  {| ev_title := "Chess night"; ev_description := None;
     ev_date := {| dt_text := "2025-03-01 18:00:00" |};
     ev_club_id := Some "000000000000000000000004" |}.

Definition working_handle : DbHandle :=
  {| db_bool := Return true;
     db_list_collection_names :=
       Return ["c01"; "c02"; "c03"; "c04"; "c05"; "c06";
               "c07"; "c08"; "c09"; "c10"; "c11"; "c12"];
     db_name := Return "clubs" |}.

(** The database after a first registration. *)
Definition first_db : Database :=
  (handle demo_sha demo_env None "tok-1" (Register grace) empty_db).2.

Definition grace_response (tok : string) (admin : bool) : AuthResponse :=
  {| resp_token := tok; resp_is_admin := admin;
     resp_name := "Grace"; resp_email := "grace@example.org" |}.

Definition alice_response (tok : string) : AuthResponse :=
  {| resp_token := tok; resp_is_admin := true;
     resp_name := "Alice"; resp_email := "alice@example.org" |}.

(** What [create_club] stores and returns for [go_club], and what
    [create_event] stores and returns for [chess_night], with the token
    of [alice] in [demo_db]. *)
Definition go_club_data : gmap string value :=
  {[ "name" := VStr "Go"; "description" := VStr "Board games";
     "created_by" := VStr "alice@example.org" ]}.


(** * Properties *)

(** ** The driver *)

Section Driver.
Context {D : Type}.
Implicit Types (query : D → bool) (coll : list D).

Lemma find_one_None query coll :
  find_one query coll = None ↔ Forall (λ d, query d = false) coll.
Proof.
  induction coll as [|d rest IH]; simpl.
  - split; [constructor | done].
  - destruct (query d) eqn:Hq.
    + split; [done | intros H; inversion H; congruence].
    + rewrite IH. split; [by constructor | by inversion 1].
Qed.

Lemma find_one_Some query coll d :
  find_one query coll = Some d ↔
  ∃ before after, coll = before ++ d :: after ∧ query d = true ∧
                  Forall (λ x, query x = false) before.
Proof.
  induction coll as [|x rest IH]; simpl.
  - split; [done | intros ([|??] & ? & ? & _); done].
  - destruct (query x) eqn:Hq.
    + split.
      * intros [= ->]. by exists [], rest.
      * intros ([|y before] & after & Heq & Hd & Hb); simplify_eq/=; [done|].
        inversion Hb; congruence.
    + rewrite IH. split.
      * intros (before & after & -> & Hd & Hb).
        exists (x :: before), after. by repeat split; [|constructor].
      * intros ([|y before] & after & Heq & Hd & Hb); simplify_eq/=; [congruence|].
        exists before, after. by inversion Hb.
Qed.

Lemma update_one_miss query (update : D → D) coll :
  Forall (λ d, query d = false) coll → update_one query update coll = coll.
Proof.
  induction 1 as [|d rest Hd _ IH]; simpl; [done|]. by rewrite Hd, IH.
Qed.

Lemma update_one_hit query (update : D → D) before d after :
  Forall (λ x, query x = false) before → query d = true →
  update_one query update (before ++ d :: after) = before ++ update d :: after.
Proof.
  intros Hb Hd. induction Hb as [|x rest Hx _ IH]; simpl.
  - by rewrite Hd.
  - by rewrite Hx, IH.
Qed.

Lemma update_one_map {B} (g : D → B) query (update : D → D) coll :
  (∀ d, g (update d) = g d) →
  map g (update_one query update coll) = map g coll.
Proof.
  intros Hg. induction coll as [|d rest IH]; simpl; [done|].
  destruct (query d); simpl; by rewrite ?Hg, ?IH.
Qed.

Lemma update_one_length query (update : D → D) coll :
  length (update_one query update coll) = length coll.
Proof.
  induction coll as [|d rest IH]; simpl; [done|].
  destruct (query d); simpl; by rewrite ?IH.
Qed.

(** Whatever an update keeps of each document, it keeps of the document at
    each position. *)
Lemma update_one_Forall2 (R : D → D → Prop) query (update : D → D) coll :
  (∀ d, R d d) → (∀ d, R d (update d)) →
  Forall2 R coll (update_one query update coll).
Proof.
  intros Hrefl Hupd. induction coll as [|d rest IH]; simpl; [constructor|].
  destruct (query d); constructor; auto.
  clear IH. induction rest; constructor; auto.
Qed.

End Driver.

(** ** Queries on the [user] collection *)

Lemma by_email_true email u : by_email email u = true ↔ u_email u = Some email.
Proof. unfold by_email. by rewrite bool_decide_eq_true. Qed.

Lemma by_email_false email u : by_email email u = false ↔ u_email u ≠ Some email.
Proof. unfold by_email. by rewrite bool_decide_eq_false. Qed.

Lemma by_session_true token u : by_session token u = true ↔ holds u token.
Proof. unfold by_session, holds. by rewrite bool_decide_eq_true. Qed.

Lemma by_session_false token u : by_session token u = false ↔ ¬ holds u token.
Proof. unfold by_session, holds. by rewrite bool_decide_eq_false. Qed.

Lemma by_id_true id u : by_id id u = true ↔ u_id u = id.
Proof. unfold by_id. by rewrite bool_decide_eq_true. Qed.

Lemma by_id_false id u : by_id id u = false ↔ u_id u ≠ id.
Proof. unfold by_id. by rewrite bool_decide_eq_false. Qed.

(** With unique ids, a query by the id of a stored user misses all the
    users before it. *)
Lemma by_id_before before u after :
  NoDup (map u_id (before ++ u :: after)) →
  Forall (λ v, by_id (u_id u) v = false) before.
Proof.
  rewrite map_app. simpl. intros Hnd.
  apply NoDup_app in Hnd as (_ & Hdisj & _).
  apply Forall_forall. intros v Hv. apply by_id_false. intros Heq.
  apply (Hdisj (u_id v)).
  - apply list_elem_of_fmap. by exists v.
  - rewrite Heq. left.
Qed.

Lemma update_by_id before u after (update : User → User) :
  NoDup (map u_id (before ++ u :: after)) →
  update_one (by_id (u_id u)) update (before ++ u :: after)
  = before ++ update u :: after.
Proof.
  intros Hnd. apply update_one_hit; [by eapply by_id_before|by apply by_id_true].
Qed.

(** A query by an id that no stored user has changes nothing. *)
Lemma update_fresh_id next (update : User → User) us :
  Forall (λ i, (i < next)%N) (map u_id us) →
  update_one (by_id next) update us = us.
Proof.
  intros Hlt. apply update_one_miss.
  apply Forall_forall. intros v Hv. apply by_id_false. intros Heq.
  rewrite Forall_forall in Hlt.
  assert (u_id v < next)%N as Hlt'; [|lia].
  apply Hlt, list_elem_of_fmap. by exists v.
Qed.

Lemma first_with_find (P : User → Prop) (query : User → bool) us :
  (∀ u, query u = true ↔ P u) →
  ∀ u, find_one query us = Some u ↔ ∃ before after, first_with P us u before after.
Proof.
  intros Hq u. rewrite find_one_Some. unfold first_with.
  split; intros (before & after & -> & Hu & Hb); exists before, after;
    (split; [done|]); (split; [by apply Hq|]);
    eapply Forall_impl; [exact Hb| |exact Hb|]; simpl; intros v Hv.
  - intros HP. apply Hq in HP. congruence.
  - destruct (query v) eqn:E; [|done]. apply Hq in E. done.
Qed.

(** ** The handlers *)

Section Handlers.

Variable sha256_hexdigest : string → string.
Variable getenv : string → option string.

Local Abbreviation hash_password := (hash_password sha256_hexdigest getenv).
Local Abbreviation register := (register sha256_hexdigest getenv).
Local Abbreviation login := (login sha256_hexdigest getenv).
Local Abbreviation register_run := (register_run sha256_hexdigest getenv).
Local Abbreviation handle := (handle sha256_hexdigest getenv).

(** The document [register] inserts, once its token is pushed. *)
Local Abbreviation registered db tok body :=
  {| u_id := next_oid db; u_name := Some (reg_name body);
     u_email := Some (reg_email body);
     u_password_hash := Some (hash_password (reg_password body));
     u_is_admin := Some (Nat.eqb (length (user db)) 0);
     u_sessions := tok |}.

Lemma get_user_by_email_eq email db :
  get_user_by_email email db = (Return (find_one (by_email email) (user db)), db).
Proof. reflexivity. Qed.

Lemma get_user_by_token_eq token db :
  get_user_by_token token db
  = (Return (if bool_decide (token = "") then None
             else find_one (by_session token) (user db)), db).
Proof. unfold get_user_by_token. by case_bool_decide. Qed.

(** The user a token resolves to is the first, in the order of the
    collection, whose sessions list holds it; the empty token resolves to
    no user. *)
Lemma get_user_by_token_Some token db u :
  get_user_by_token token db = (Return (Some u), db) ↔
  token ≠ "" ∧ ∃ before after,
    first_with (λ v, holds v token) (user db) u before after.
Proof.
  rewrite get_user_by_token_eq. case_bool_decide as Htok.
  - split; [done | by intros []].
  - rewrite <- (first_with_find _ (by_session token)) by apply by_session_true.
    split; [intros [= ->]; done | intros [_ ->]; done].
Qed.

Lemma get_user_by_token_None token db :
  get_user_by_token token db = (Return None, db) ↔
  token = "" ∨ ∀ v, v ∈ user db → ¬ holds v token.
Proof.
  rewrite get_user_by_token_eq. case_bool_decide as Htok.
  - split; [by left | done].
  - split.
    + intros [= Hfind]. right. apply find_one_None in Hfind.
      rewrite Forall_forall in Hfind. intros v Hv. by apply by_session_false, Hfind.
    + intros [?|Hnone]; [done|]. f_equal. f_equal. apply find_one_None.
      apply Forall_forall. intros v Hv. by apply by_session_false, Hnone.
Qed.

Lemma register_taken tok body db u :
  find_one (by_email (reg_email body)) (user db) = Some u →
  register tok body db = (Raise (HTTPException 400 "Email already registered"), db).
Proof.
  intros Hfind. unfold register, mbind, handler_bind.
  by rewrite get_user_by_email_eq, Hfind.
Qed.

Lemma register_new tok body db :
  find_one (by_email (reg_email body)) (user db) = None →
  register tok body db
  = (Return {| resp_token := tok; resp_is_admin := Nat.eqb (length (user db)) 0;
               resp_name := reg_name body; resp_email := reg_email body |},
     {| user := update_one (by_id (next_oid db)) (push_session tok)
                  (user db ++ [registered db [] body]);
        collections := collections db;
        next_oid := N.succ (next_oid db) |}).
Proof.
  intros Hfind. unfold register, mbind, handler_bind.
  by rewrite get_user_by_email_eq, Hfind.
Qed.

Lemma find_by_email_None email (us : list User) :
  find_one (by_email email) us = None ↔ ∀ u, u ∈ us → u_email u ≠ Some email.
Proof.
  rewrite find_one_None, Forall_forall.
  split; intros H u Hu; by apply by_email_false, H.
Qed.

Lemma push_session_email tok u : u_email (push_session tok u) = u_email u.
Proof. reflexivity. Qed.

Lemma push_session_is_admin tok u : u_is_admin (push_session tok u) = u_is_admin u.
Proof. reflexivity. Qed.

Lemma push_session_id tok u : u_id (push_session tok u) = u_id u.
Proof. reflexivity. Qed.

Lemma pull_session_id tok u : u_id (pull_session tok u) = u_id u.
Proof. by destruct tok. Qed.

(** One registration with an email that no stored user has. *)
Lemma register_new_user tok body db :
  (∀ u, u ∈ user db → u_email u ≠ Some (reg_email body)) →
  ∃ db',
    register tok body db
    = (Return {| resp_token := tok; resp_is_admin := Nat.eqb (length (user db)) 0;
                 resp_name := reg_name body; resp_email := reg_email body |}, db') ∧
    map u_email (user db') = map u_email (user db) ++ [Some (reg_email body)] ∧
    map u_is_admin (user db')
    = map u_is_admin (user db) ++ [Some (Nat.eqb (length (user db)) 0)].
Proof.
  intros Hnew. apply find_by_email_None in Hnew.
  eexists. split; [by apply register_new|]. simpl.
  rewrite !update_one_map by done. by rewrite !map_app.
Qed.

(** C1.  In every run of registrations whose emails differ from one
    another and from the stored ones, each registration returns, and it
    adds one user document to the collection, with the email of the
    request; the [is_admin] of the response and of that document is true
    for the registration that met an empty user collection and false for
    every registration that met a non-empty one. *)
Theorem register_admin_iff_first_user (reqs : list (string * RegisterRequest)) db :
  NoDup (map (λ r, reg_email r.2) reqs) →
  (∀ r u, r ∈ reqs → u ∈ user db → u_email u ≠ Some (reg_email r.2)) →
  Forall2 (λ r '(pre, out, post),
      ∃ first : bool,
        (user pre = [] → first = true) ∧
        (user pre ≠ [] → first = false) ∧
        out = Return {| resp_token := r.1; resp_is_admin := first;
                        resp_name := reg_name r.2; resp_email := reg_email r.2 |} ∧
        map u_email (user post) = map u_email (user pre) ++ [Some (reg_email r.2)] ∧
        map u_is_admin (user post) = map u_is_admin (user pre) ++ [Some first])
    reqs (register_run reqs db).
Proof.
  revert db. induction reqs as [|[tok body] rest IH]; intros db Hnd Hnew; simpl.
  - constructor.
  - apply NoDup_cons in Hnd as [Hhead Hnd].
    destruct (register_new_user tok body db) as (db' & Hrun & Hemail & Hadmin).
    { intros u Hu. apply (Hnew (tok, body) u); [left | done]. }
    rewrite Hrun. constructor.
    + exists (Nat.eqb (length (user db)) 0). simpl.
      repeat split; try done; destruct (user db); simpl; congruence.
    + apply IH; [done|]. intros r u Hr Hu.
      assert (u_email u ∈ map u_email (user db')) as Hin.
      { apply list_elem_of_fmap. by exists u. }
      rewrite Hemail in Hin. apply elem_of_app in Hin as [Hin|Hin].
      * apply list_elem_of_fmap in Hin as (v & -> & Hv).
        apply (Hnew r v); [by right | done].
      * apply list_elem_of_singleton in Hin. rewrite Hin. intros [= Heq].
        apply Hhead. apply list_elem_of_fmap. by exists r.
Qed.

(** C4.  When a stored user has the email of the request, [register]
    answers 400 and the database is as before: no user document, and so
    no sessions list, has changed. *)
Theorem register_existing_email tok body db u :
  u ∈ user db → u_email u = Some (reg_email body) →
  register tok body db
  = (Raise (HTTPException 400 "Email already registered"), db) ∧
  status_of (register tok body db).1 = 400 ∧
  user (register tok body db).2 = user db.
Proof.
  intros Hu Hemail.
  destruct (find_one (by_email (reg_email body)) (user db)) as [v|] eqn:Hfind.
  - by rewrite (register_taken _ _ _ v).
  - exfalso. by eapply find_by_email_None.
Qed.

(** C9.  After a registration that returned, the user collection is the
    former one followed by the new user, whose sessions list is exactly
    the token of the response. *)
Theorem register_one_session tok body db r db' :
  wf db →
  register tok body db = (Return r, db') →
  ∃ u, user db' = user db ++ [u] ∧
       u_id u = next_oid db ∧
       u_email u = Some (reg_email body) ∧
       u_sessions u = [resp_token r].
Proof.
  intros [[Hnd Hlt] _] Hrun.
  destruct (find_one (by_email (reg_email body)) (user db)) as [v|] eqn:Hfind.
  { by rewrite (register_taken _ _ _ v) in Hrun. }
  rewrite register_new in Hrun by done. simplify_eq/=.
  assert (Forall (λ v, by_id (next_oid db) v = false) (user db)) as Hmiss.
  { apply Forall_forall. intros v Hv. apply by_id_false. intros Heq.
    rewrite Forall_forall in Hlt.
    assert (u_id v < next_oid db)%N; [|lia].
    apply Hlt, list_elem_of_fmap. by exists v. }
  rewrite update_one_hit by (done || by apply by_id_true).
  by eexists.
Qed.

Lemma login_eq tok body db :
  login tok body db
  = match find_one (by_email (login_email body)) (user db) with
    | None => (Raise (HTTPException 401 "Invalid credentials"), db)
    | Some u =>
        if bool_decide (u_password_hash u ≠ Some (hash_password (login_password body)))
        then (Raise (HTTPException 401 "Invalid credentials"), db)
        else (Return {| resp_token := tok;
                        resp_is_admin := default false (u_is_admin u);
                        resp_name := default "" (u_name u);
                        resp_email := default "" (u_email u) |},
              set_user (update_one (by_id (u_id u)) (push_session tok) (user db)) db)
    end.
Proof.
  unfold login, mbind, handler_bind. rewrite get_user_by_email_eq.
  destruct (find_one _ _) as [u|]; [|done]. by case_bool_decide.
Qed.

Lemma first_with_email_find email us u :
  find_one (by_email email) us = Some u ↔
  ∃ before after, first_with (λ v, u_email v = Some email) us u before after.
Proof. apply first_with_find, by_email_true. Qed.



Lemma logout_eq token db :
  logout token db
  = (Return {[ "success" := VBool true ]},
     match (get_user_by_token (or_empty token) db).1 with
     | Return (Some u) =>
         set_user (update_one (by_id (u_id u)) (pull_session token) (user db)) db
     | _ => db
     end).
Proof.
  unfold logout, mbind, handler_bind. rewrite get_user_by_token_eq. simpl.
  by destruct (if bool_decide _ then _ else _).
Qed.

Lemma or_empty_Some t : t ≠ "" → or_empty (Some t) = t.
Proof. intros Ht. simpl. by case_bool_decide. Qed.

Lemma or_empty_eq token :
  or_empty token = "" ↔ token = None ∨ token = Some "".
Proof.
  destruct token as [t|]; simpl; [|by split; [left|]].
  case_bool_decide; split; try done; [by right; f_equal | by intros [|[= ->]]].
Qed.

(** When some user holds a token, some user is the first to hold it. *)
Lemma first_holder token (us : list User) :
  (∃ v, v ∈ us ∧ holds v token) →
  ∃ u before after, first_with (λ v, holds v token) us u before after.
Proof.
  intros (v & Hv & Hholds).
  destruct (find_one (by_session token) us) as [u|] eqn:Hfind.
  - exists u. by apply (first_with_find _ (by_session token)); [apply by_session_true|].
  - apply find_one_None in Hfind. rewrite Forall_forall in Hfind.
    apply Hfind, by_session_false in Hv. done.
Qed.

(** C5, as amended.  [logout] always returns [{"success": True}].  When
    the token is not empty and some user holds it, every occurrence of
    the token leaves the sessions list of the first user that holds it;
    the other tokens of that list stay, in their order, and nothing else
    in the database changes.  When the token is missing, is empty, or is
    held by no user, the database is as before. *)
Theorem logout_spec token db :
  wf db →
  (logout token db).1 = Return {[ "success" := VBool true ]} ∧
  status_of (logout token db).1 = 200 ∧
  (∀ t, token = Some t → t ≠ "" →
     (∃ v, v ∈ user db ∧ holds v t) →
     ∃ u before after,
       first_with (λ v, holds v t) (user db) u before after ∧
       (logout token db).2
       = set_user
           (before ++ set_sessions (filter (λ s, s ≠ t) (u_sessions u)) u :: after) db) ∧
  (token = None ∨ token = Some "" ∨
   (∀ t, token = Some t → ∀ v, v ∈ user db → ¬ holds v t) →
   (logout token db).2 = db).
Proof.
  intros [[Hnd _] _]. rewrite logout_eq. simpl.
  split; [done|]. split; [done|]. split.
  - intros t -> Ht Hheld.
    destruct (first_holder t (user db) Hheld) as (u & before & after & Hfirst).
    exists u, before, after. split; [done|].
    rewrite or_empty_Some by done.
    assert (get_user_by_token t db = (Return (Some u), db)) as ->.
    { apply get_user_by_token_Some. eauto. }
    simpl. destruct Hfirst as (Hsplit & _ & _).
    rewrite Hsplit in Hnd |- *. by rewrite update_by_id.
  - intros Hcase.
    assert (get_user_by_token (or_empty token) db = (Return None, db)) as ->; [|done].
    apply get_user_by_token_None.
    destruct Hcase as [->|[->|Hnone]]; [by left | by left |].
    destruct token as [t|]; [|by left].
    destruct (decide (t = "")) as [->|Ht]; [by left|].
    right. rewrite or_empty_Some by done. by apply Hnone.
Qed.

(** The dict that [create_club] stores. *)
Local Abbreviation club_data body u :=
  ({[ "name" := VStr (club_name body);
      "description" := opt_str (club_description body);
      "created_by" := VStr (py_str (opt_str (u_email u))) ]} : gmap string value).

(** The dict that [create_event] stores. *)
Local Abbreviation event_data body u :=
  ({[ "title" := VStr (ev_title body);
      "description" := opt_str (ev_description body);
      "date" := VDate (ev_date body);
      "club_id" := opt_str (ev_club_id body);
      "created_by" := VStr (py_str (opt_str (u_email u))) ]} : gmap string value).

Lemma create_club_eq body token db :
  create_club body token db
  = match (get_user_by_token (or_empty token) db).1 with
    | Return (Some u) =>
        if negb (default false (u_is_admin u))
        then (Raise (HTTPException 403 "Admin only"), db)
        else (Return (club_data body u ∪ {[ "id" := VStr (str_oid (next_oid db)) ]}),
              stored "club" (club_data body u) db)
    | _ => (Raise (HTTPException 403 "Admin only"), db)
    end.
Proof.
  unfold create_club, mbind, handler_bind. rewrite get_user_by_token_eq. simpl.
  destruct (if bool_decide _ then _ else _) as [u|]; [|done].
  by destruct (negb _).
Qed.

Lemma create_event_eq body token db :
  create_event body token db
  = match (get_user_by_token (or_empty token) db).1 with
    | Return (Some u) =>
        if negb (default false (u_is_admin u))
        then (Raise (HTTPException 403 "Admin only"), db)
        else (Return (event_data body u ∪ {[ "id" := VStr (str_oid (next_oid db)) ]}),
              stored "event" (event_data body u) db)
    | _ => (Raise (HTTPException 403 "Admin only"), db)
    end.
Proof.
  unfold create_event, mbind, handler_bind. rewrite get_user_by_token_eq. simpl.
  destruct (if bool_decide _ then _ else _) as [u|]; [|done].
  by destruct (negb _).
Qed.

Lemma collection_stored_same name data db :
  collection name (stored name data db)
  = collection name db ++ [{| doc_id := next_oid db; doc_fields := data |}].
Proof. unfold collection at 1. simpl. by rewrite lookup_insert_eq. Qed.

Lemma collection_stored_other name name' data db :
  name ≠ name' → collection name' (stored name data db) = collection name' db.
Proof. intros Hne. unfold collection. simpl. by rewrite lookup_insert_ne. Qed.

Lemma collection_ids_ok name db :
  wf db → ids_ok (map doc_id (collection name db)) (next_oid db).
Proof.
  intros [_ Hcolls]. unfold collection.
  destruct (collections db !! name) as [docs|] eqn:Hname; simpl.
  - by apply (Hcolls name docs).
  - split; constructor.
Qed.

(** The id under which the gateway stores a document finds that document. *)
Lemma stored_find name data db :
  wf db →
  find_one (λ d, bool_decide (doc_id d = next_oid db)) (collection name (stored name data db))
  = Some {| doc_id := next_oid db; doc_fields := data |}.
Proof.
  intros Hwf. rewrite collection_stored_same. apply find_one_Some.
  exists (collection name db), []. split; [done|].
  split; [by apply bool_decide_eq_true|].
  destruct (collection_ids_ok name db Hwf) as [_ Hlt].
  rewrite Forall_fmap in Hlt. eapply Forall_impl; [exact Hlt|].
  simpl. intros d Hd. apply bool_decide_eq_false. lia.
Qed.

(** C2.  [create_club] answers 403, and leaves the database as it was,
    when the token is missing, when no user holds it, and when it
    resolves to a user whose [is_admin] is not true.  When the token
    resolves to an admin, one document is appended to the [club]
    collection and nothing else is stored: its fields are the name and
    the description of the request and [created_by], the email of that
    user; the response is these fields and, under ["id"], the text of the
    id of the new document, which finds that document. *)
Theorem create_club_spec body token db :
  let denied := (Raise (HTTPException 403 "Admin only"), db) in
  (token = None → create_club body token db = denied) ∧
  (∀ t, token = Some t → (∀ v, v ∈ user db → ¬ holds v t) →
     create_club body token db = denied) ∧
  (∀ u, resolves token db u → u_is_admin u ≠ Some true →
     create_club body token db = denied) ∧
  (∀ u, resolves token db u → u_is_admin u = Some true →
     let data := club_data body u in
     let db' := stored "club" data db in
     create_club body token db
     = (Return (<["id" := VStr (str_oid (next_oid db))]> data), db') ∧
     (∀ e, u_email u = Some e →
        data = {[ "name" := VStr (club_name body);
                  "description" := opt_str (club_description body);
                  "created_by" := VStr e ]}) ∧
     user db' = user db ∧
     collection "club" db'
     = collection "club" db ++ [{| doc_id := next_oid db; doc_fields := data |}] ∧
     (∀ name, name ≠ "club" → collection name db' = collection name db) ∧
     (wf db →
      find_one (λ d, bool_decide (doc_id d = next_oid db)) (collection "club" db')
      = Some {| doc_id := next_oid db; doc_fields := data |})).
Proof.
  intros denied. rewrite create_club_eq. split; [|split; [|split]].
  - by intros ->.
  - intros t -> Hnone.
    assert (get_user_by_token (or_empty (Some t)) db = (Return None, db)) as ->; [|done].
    apply get_user_by_token_None.
    destruct (decide (t = "")) as [->|Ht]; [by left|].
    right. by rewrite or_empty_Some.
  - intros u Hu Hadmin. unfold resolves in Hu. rewrite Hu. simpl.
    by destruct (u_is_admin u) as [[]|].
  - intros u Hu Hadmin data db'. unfold resolves in Hu. rewrite Hu. simpl. rewrite Hadmin. simpl.
    split; [|split; [|split; [|split; [|split]]]].
    + by rewrite (insert_union_singleton_r data "id").
    + intros e He. unfold data. by rewrite He.
    + done.
    + by apply collection_stored_same.
    + intros name Hne. by apply collection_stored_other.
    + apply stored_find.
Qed.

(** C10.  A user document stored without the [is_admin] field counts as
    a user who is not an admin wherever the flag is read: [create_club]
    and [create_event] answer 403 to a token that resolves to such a
    user, and change nothing, and a [login] of such a user returns
    [is_admin] false. *)
Theorem absent_is_admin_is_false u db :
  u_is_admin u = None →
  (∀ body token, resolves token db u →
     create_club body token db = (Raise (HTTPException 403 "Admin only"), db)) ∧
  (∀ body token, resolves token db u →
     create_event body token db = (Raise (HTTPException 403 "Admin only"), db)) ∧
  (∀ tok body before after,
     first_with (λ v, u_email v = Some (login_email body)) (user db) u before after →
     u_password_hash u = Some (hash_password (login_password body)) →
     ∃ r db', login tok body db = (Return r, db') ∧ resp_is_admin r = false ∧
              resp_token r = tok).
Proof.
  intros Hflag. repeat split.
  - intros body token Hu. unfold resolves in Hu.
    rewrite create_club_eq, Hu. simpl. by rewrite Hflag.
  - intros body token Hu. unfold resolves in Hu.
    rewrite create_event_eq, Hu. simpl. by rewrite Hflag.
  - intros tok body before after Hfirst Hhash.
    assert (find_one (by_email (login_email body)) (user db) = Some u) as Hfind.
    { apply first_with_email_find. eauto. }
    rewrite login_eq, Hfind, Hhash.
    rewrite bool_decide_eq_false_2 by (by intros []).
    eexists _, _. split; [done|]. simpl. by rewrite Hflag.
Qed.

Lemma rename_id_to_dict d :
  rename_id (to_dict d)
  = Return (<["id" := VStr (str_oid (doc_id d))]> (delete "_id" (to_dict d))).
Proof.
  unfold rename_id, dict_pop, to_dict. by rewrite lookup_insert_eq.
Qed.

Lemma rename_id_renamed d :
  id_renamed d (<["id" := VStr (str_oid (doc_id d))]> (delete "_id" (to_dict d))).
Proof.
  split; [|split].
  - rewrite lookup_insert_ne by done. apply lookup_delete_eq.
  - by rewrite lookup_insert_eq.
  - intros k H_id Hid. rewrite lookup_insert_ne by done. by rewrite lookup_delete_ne.
Qed.

Lemma for_each_rename_id docs :
  ∃ items, for_each rename_id (map to_dict docs) = Return items ∧
           Forall2 id_renamed docs items.
Proof.
  induction docs as [|d rest (items & Hrest & Hall)]; simpl.
  - exists []. by split; [|constructor].
  - rewrite rename_id_to_dict, Hrest. eexists. split; [done|].
    constructor; [apply rename_id_renamed | done].
Qed.

(** C7.  [list_clubs] and [list_events] return, and leave the database
    as it was; their response has one item for each stored document of
    the collection, in order, and the item has no key ["_id"], has under
    ["id"] the text of the native id of the document, and has every other
    field of the document as it is stored. *)
Theorem list_handlers_rename_id db :
  (∃ items, list_clubs db = (Return items, db) ∧
            Forall2 id_renamed (collection "club" db) items) ∧
  (∃ items, list_events db = (Return items, db) ∧
            Forall2 id_renamed (collection "event" db) items).
Proof.
  split.
  - destruct (for_each_rename_id (collection "club" db)) as (items & Hrun & Hall).
    exists items. split; [|done].
    unfold list_clubs, mbind, handler_bind, get_documents, lift. by rewrite Hrun.
  - destruct (for_each_rename_id (collection "event" db)) as (items & Hrun & Hall).
    exists items. split; [|done].
    unfold list_events, mbind, handler_bind, get_documents, lift. by rewrite Hrun.
Qed.



(** ** What a request does to the [user] collection *)

Lemma update_one_lookup {D} (query : D → bool) (update : D → D) coll i d :
  coll !! i = Some d →
  update_one query update coll !! i = Some d ∨
  update_one query update coll !! i = Some (update d).
Proof.
  revert i. induction coll as [|x rest IH]; intros i Hi; [done|]. simpl.
  destruct (query x), i as [|i]; simplify_eq/=; auto.
Qed.

Lemma holds_push tok u t : holds u t → holds (push_session tok u) t.
Proof. unfold holds. simpl. intros Ht. apply elem_of_app. by left. Qed.

Lemma holds_pull token u t :
  holds u t → token ≠ Some t → holds (pull_session token u) t.
Proof.
  unfold holds. destruct token as [t'|]; simpl; [|done].
  intros Ht Hne. apply list_elem_of_filter. split; [congruence | done].
Qed.

(** The users after a request: the users before, at their positions,
    some with one more session token or, after a logout, without the
    token of the logout; and at most one new user at the end. *)
Lemma handle_users hdb tok req db :
  ∃ (query : User → bool) (update : User → User) (extra : list User),
    user (handle hdb tok req db).2 = update_one query update (user db ++ extra) ∧
    (∀ u, u_id (update u) = u_id u) ∧
    (∀ u t, holds u t → req ≠ Logout (Some t) → holds (update u) t).
Proof.
  assert (∀ db' : Database, user db' = user db →
    ∃ (query : User → bool) (update : User → User) (extra : list User),
      user db' = update_one query update (user db ++ extra) ∧
      (∀ u, u_id (update u) = u_id u) ∧
      (∀ u t, holds u t → req ≠ Logout (Some t) → holds (update u) t)) as Hsame.
  { intros db' ->. exists (λ _, false), id, [].
    rewrite app_nil_r, update_one_miss; [done|]. by apply Forall_forall. }
  destruct req; unfold handle;
    try unfold mbind at 1, handler_bind at 1; unfold mret, handler_ret.
  - by apply Hsame.
  - destruct (find_one (by_email (reg_email body)) (user db)) as [v|] eqn:Hfind.
    + rewrite (register_taken _ _ _ v) by done. by apply Hsame.
    + rewrite register_new by done. simpl.
      eexists _, _, _. split; [done|]. split; [done|].
      intros u t Ht _. by apply holds_push.
  - rewrite login_eq.
    destruct (find_one _ _) as [u|]; [|by apply Hsame].
    case_bool_decide; [by apply Hsame|]. simpl.
    exists (by_id (u_id u)), (push_session tok), [].
    rewrite app_nil_r. split; [done|]. split; [done|].
    intros v t Ht _. by apply holds_push.
  - rewrite logout_eq. simpl.
    destruct (get_user_by_token _ _).1 as [[u|]|]; try by apply Hsame.
    simpl. exists (by_id (u_id u)), (pull_session token), [].
    rewrite app_nil_r. split; [done|]. split; [apply pull_session_id|].
    intros v t Ht Hne. apply holds_pull; [done | congruence].
  - unfold list_clubs, mbind, handler_bind, get_documents, lift.
    destruct (for_each _ _); by apply Hsame.
  - rewrite create_club_eq.
    destruct (get_user_by_token _ _).1 as [[u|]|]; try by apply Hsame.
    destruct (negb _); by apply Hsame.
  - unfold list_events, mbind, handler_bind, get_documents, lift.
    destruct (for_each _ _); by apply Hsame.
  - rewrite create_event_eq.
    destruct (get_user_by_token _ _).1 as [[u|]|]; try by apply Hsame.
    destruct (negb _); by apply Hsame.
  - unfold lift. destruct (test_database _ _); by apply Hsame.
Qed.

(** C6.  A token in the sessions list of a stored user is still in the
    sessions list of that user, at the same place in the collection,
    after any request other than the logout that carries the token,
    whether the request returns or raises.  No handler takes a clock or
    [SESSION_TTL_MINUTES]: the state after a request is a function of
    the state before, the request and the token drawn. *)
Theorem session_tokens_stay hdb tok req db i u t :
  user db !! i = Some u → holds u t →
  req ≠ Logout (Some t) →
  ∃ v, user (handle hdb tok req db).2 !! i = Some v ∧
       u_id v = u_id u ∧ holds v t.
Proof.
  intros Hi Ht Hreq.
  destruct (handle_users hdb tok req db) as (query & update & extra & -> & Hid & Hkeep).
  assert ((user db ++ extra) !! i = Some u) as Hi' by by apply lookup_app_l_Some.
  destruct (update_one_lookup query update _ _ _ Hi') as [->| ->].
  - by exists u.
  - exists (update u). split; [done|]. split; [apply Hid | by apply Hkeep].
Qed.

(** ** The invariant is kept *)

Lemma ids_ok_succ ids next : ids_ok ids next → ids_ok ids (N.succ next).
Proof.
  intros [Hnd Hlt]. split; [done|].
  eapply Forall_impl; [exact Hlt|]. simpl. lia.
Qed.

Lemma ids_ok_snoc ids next : ids_ok ids next → ids_ok (ids ++ [next]) (N.succ next).
Proof.
  intros [Hnd Hlt]. split.
  - apply NoDup_app. split; [done|]. split; [|apply NoDup_singleton].
    intros i Hi Hin. apply list_elem_of_singleton in Hin as ->.
    rewrite Forall_forall in Hlt. specialize (Hlt _ Hi). lia.
  - apply Forall_app. split.
    + eapply Forall_impl; [exact Hlt|]. simpl. lia.
    + constructor; [lia | constructor].
Qed.

Lemma wf_update query (update : User → User) db :
  (∀ u, u_id (update u) = u_id u) →
  wf db → wf (set_user (update_one query update (user db)) db).
Proof.
  intros Hid [Husers Hcolls]. split; [|done]. simpl.
  by rewrite update_one_map.
Qed.

Lemma wf_stored name data db : wf db → wf (stored name data db).
Proof.
  intros Hwf. pose proof (collection_ids_ok name db Hwf) as Hname.
  destruct Hwf as [Husers Hcolls]. split; simpl.
  - by apply ids_ok_succ.
  - apply map_Forall_insert_2.
    + rewrite map_app. simpl. by apply ids_ok_snoc.
    + intros k docs Hk. apply ids_ok_succ. by apply (Hcolls k).
Qed.

Lemma wf_registered tok body db :
  wf db →
  wf {| user := update_one (by_id (next_oid db)) (push_session tok)
                  (user db ++ [registered db [] body]);
        collections := collections db;
        next_oid := N.succ (next_oid db) |}.
Proof.
  intros [Husers Hcolls]. split; simpl.
  - rewrite update_one_map by done. rewrite map_app. simpl. by apply ids_ok_snoc.
  - intros k docs Hk. apply ids_ok_succ. by apply (Hcolls k).
Qed.

(** Every request leaves the ids of each collection unique, and older
    than the next id. *)
Lemma handle_wf hdb tok req db : wf db → wf (handle hdb tok req db).2.
Proof.
  intros Hwf. destruct req; unfold handle;
    try unfold mbind at 1, handler_bind at 1; unfold mret, handler_ret.
  - done.
  - destruct (find_one (by_email (reg_email body)) (user db)) as [v|] eqn:Hfind.
    + by rewrite (register_taken _ _ _ v).
    + rewrite register_new by done. by apply wf_registered.
  - rewrite login_eq.
    destruct (find_one _ _) as [u|]; [|done].
    case_bool_decide; [done|]. by apply wf_update.
  - rewrite logout_eq. simpl.
    destruct (get_user_by_token _ _).1 as [[u|]|]; try done.
    apply wf_update; [apply pull_session_id | done].
  - unfold list_clubs, mbind, handler_bind, get_documents, lift.
    by destruct (for_each _ _).
  - rewrite create_club_eq.
    destruct (get_user_by_token _ _).1 as [[u|]|]; try done.
    destruct (negb _); [done|]. by apply wf_stored.
  - unfold list_events, mbind, handler_bind, get_documents, lift.
    by destruct (for_each _ _).
  - rewrite create_event_eq.
    destruct (get_user_by_token _ _).1 as [[u|]|]; try done.
    destruct (negb _); [done|]. by apply wf_stored.
  - unfold lift. by destruct (test_database _ _).
Qed.

End Handlers.

Lemma wf_empty_db : wf empty_db.
Proof. split; [split; constructor | apply map_Forall_empty]. Qed.

(** ** The theorems at sample data *)

Lemma wf_demo_db : wf demo_db.
Proof.
  split.
  - split.
    + apply (bool_decide_unpack _). by vm_compute.
    + repeat constructor.
  - apply map_Forall_singleton. split; repeat constructor. set_solver.
Qed.

Lemma wf_dave_db : wf dave_db.
Proof.
  split; [|apply map_Forall_empty]. split.
  - apply (bool_decide_unpack _). by vm_compute.
  - repeat constructor.
Qed.

Lemma register_admin_iff_first_user_witness :
  Forall2 (λ r '(pre, out, post),
      ∃ first : bool,
        (user pre = [] → first = true) ∧
        (user pre ≠ [] → first = false) ∧
        out = Return {| resp_token := r.1; resp_is_admin := first;
                        resp_name := reg_name r.2; resp_email := reg_email r.2 |} ∧
        map u_email (user post) = map u_email (user pre) ++ [Some (reg_email r.2)] ∧
        map u_is_admin (user post) = map u_is_admin (user pre) ++ [Some first])
    demo_registrations
    (register_run demo_sha demo_env demo_registrations empty_db).
Proof.
  apply (register_admin_iff_first_user demo_sha demo_env demo_registrations empty_db).
  - apply (bool_decide_unpack _). by vm_compute.
  - simpl. intros r u _ Hu. by apply elem_of_nil in Hu.
Defined.

Lemma register_existing_email_witness :
  register demo_sha demo_env "tok-9" bob_again demo_db
  = (Raise (HTTPException 400 "Email already registered"), demo_db) ∧
  status_of (register demo_sha demo_env "tok-9" bob_again demo_db).1 = 400 ∧
  user (register demo_sha demo_env "tok-9" bob_again demo_db).2 = user demo_db.
Proof.
  apply (register_existing_email demo_sha demo_env "tok-9" bob_again demo_db bob).
  - right. left.
  - reflexivity.
Defined.

Lemma register_one_session_witness :
  ∃ u, user (register demo_sha demo_env "tok-9" grace demo_db).2 = user demo_db ++ [u] ∧
       u_id u = next_oid demo_db ∧
       u_email u = Some (reg_email grace) ∧
       u_sessions u = ["tok-9"].
Proof.
  apply (register_one_session demo_sha demo_env "tok-9" grace demo_db
           {| resp_token := "tok-9"; resp_is_admin := false;
              resp_name := "Grace"; resp_email := "grace@example.org" |}
           (register demo_sha demo_env "tok-9" grace demo_db).2).
  - exact wf_demo_db.
  - reflexivity.
Defined.


Lemma logout_spec_witness :
  ∃ u before after,
    first_with (λ v, holds v "tok-d1") (user dave_db) u before after ∧
    (logout (Some "tok-d1") dave_db).2
    = set_user
        (before ++ set_sessions (filter (λ s, s ≠ "tok-d1") (u_sessions u)) u :: after)
        dave_db.
Proof.
  apply (logout_spec (Some "tok-d1") dave_db wf_dave_db).
  - reflexivity.
  - discriminate.
  - exists dave. split; [right; left | right; left].
Defined.

(** C5 without the amendment fails for the empty token: a sessions list
    holds the empty string, the logout carries the empty string, and the
    handler, whose lookup takes an empty token for a missing one, leaves
    the list as it is. *)
Lemma logout_empty_token_stays :
  wf dave_db ∧ dave ∈ user dave_db ∧ holds dave "" ∧
  logout (Some "") dave_db = (Return {[ "success" := VBool true ]}, dave_db) ∧
  ¬ (∀ u, u ∈ user (logout (Some "") dave_db).2 → ¬ holds u "").
Proof.
  split; [exact wf_dave_db|]. split; [right; left|]. split; [left|].
  split; [reflexivity|].
  intros Hgone. apply (Hgone dave); [right; left | left].
Qed.

Lemma create_club_spec_witness :
  resolves (Some "tok-a1") demo_db alice ∧
  create_club go_club (Some "tok-a1") demo_db
  = (Return (<["id" := VStr (str_oid 5)]>
               {[ "name" := VStr "Go"; "description" := VStr "Board games";
                  "created_by" := VStr "alice@example.org" ]}),
     stored "club"
       {[ "name" := VStr "Go"; "description" := VStr "Board games";
          "created_by" := VStr "alice@example.org" ]} demo_db) ∧
  create_club go_club (Some "tok-b1") demo_db
  = (Raise (HTTPException 403 "Admin only"), demo_db).
Proof.
  split; [reflexivity|]. split.
  - destruct (create_club_spec go_club (Some "tok-a1") demo_db) as (_ & _ & _ & Hadmin).
    destruct (Hadmin alice) as (Hrun & _); [reflexivity | reflexivity |].
    exact Hrun.
  - apply (proj1 (proj2 (proj2 (create_club_spec go_club (Some "tok-b1") demo_db))) bob).
    + reflexivity.
    + discriminate.
Defined.

Lemma absent_is_admin_is_false_witness :
  create_club go_club (Some "tok-c1") demo_db
  = (Raise (HTTPException 403 "Admin only"), demo_db) ∧
  ∃ r db', login demo_sha demo_env "tok-9" carol_login demo_db = (Return r, db') ∧
           resp_is_admin r = false ∧ resp_token r = "tok-9".
Proof.
  destruct (absent_is_admin_is_false demo_sha demo_env carol demo_db eq_refl)
    as (Hclub & _ & Hlogin).
  split.
  - apply Hclub. reflexivity.
  - apply (Hlogin "tok-9" carol_login [alice; bob] []); [|reflexivity].
    split; [reflexivity|]. split; [reflexivity|].
    repeat constructor; discriminate.
Defined.

Lemma session_tokens_stay_witness :
  ∃ v, user (handle demo_sha demo_env None "tok-9" (Logout (Some "tok-a2")) demo_db).2 !! 0
       = Some v ∧
       u_id v = u_id alice ∧ holds v "tok-a1".
Proof.
  apply (session_tokens_stay demo_sha demo_env None "tok-9"
           (Logout (Some "tok-a2")) demo_db 0 alice "tok-a1").
  - reflexivity.
  - left.
  - discriminate.
Defined.

(** * More of the application *)

(** ** Lookups and guards *)

Lemma or_empty_Some_eq t : or_empty (Some t) = t.
Proof. simpl. by case_bool_decide. Qed.

Lemma resolves_None db u : ¬ resolves None db u.
Proof. unfold resolves. by rewrite get_user_by_token_eq. Qed.

Lemma resolves_Some t db u :
  resolves (Some t) db u ↔ get_user_by_token t db = (Return (Some u), db).
Proof. unfold resolves. by rewrite or_empty_Some_eq. Qed.

(** Whether a token resolves is decided by the lookup. *)
Lemma resolves_cases token db :
  (∃ u, resolves token db u) ∨
  get_user_by_token (or_empty token) db = (Return None, db).
Proof.
  unfold resolves. rewrite get_user_by_token_eq.
  destruct (if bool_decide _ then _ else _) as [u|]; [left; by exists u | by right].
Qed.

Lemma require_auth_eq token db :
  require_auth token db
  = match token with
    | None => (Raise (HTTPException 401 "Missing token"), db)
    | Some t =>
        match (get_user_by_token t db).1 with
        | Return (Some u) => (Return u, db)
        | _ => (Raise (HTTPException 401 "Invalid token"), db)
        end
    end.
Proof.
  destruct token as [t|]; [|done].
  unfold require_auth, mbind, handler_bind. rewrite get_user_by_token_eq. simpl.
  by destruct (if bool_decide _ then _ else _).
Qed.

Lemma require_admin_eq token db :
  require_admin token db
  = match (require_auth token db).1 with
    | Return u =>
        if negb (default false (u_is_admin u))
        then (Raise (HTTPException 403 "Admin only"), db)
        else (Return u, db)
    | Raise e => (Raise e, db)
    end.
Proof.
  unfold require_admin, mbind, handler_bind. rewrite require_auth_eq.
  destruct token as [t|]; [|done].
  destruct (get_user_by_token t db).1 as [[u|]|]; simpl; try done.
  by destruct (negb _).
Qed.

(** [get_user_by_email] reads only: it returns the first user document,
    in the order of the collection, that has the email, and [None] exactly
    when no user document has it. *)
Theorem get_user_by_email_spec email db :
  (get_user_by_email email db).2 = db ∧
  (∀ u, (get_user_by_email email db).1 = Return (Some u) ↔
        ∃ before after,
          first_with (λ v, u_email v = Some email) (user db) u before after) ∧
  ((get_user_by_email email db).1 = Return None ↔
   ∀ u, u ∈ user db → u_email u ≠ Some email).
Proof.
  rewrite get_user_by_email_eq. simpl. split; [done|]. split.
  - intros u. rewrite <- first_with_email_find. split; [by intros [= ->] | by intros ->].
  - rewrite <- find_by_email_None. split; [by intros [= ->] | by intros ->].
Qed.

(** [get_user_by_token] reads only and never raises: it returns the first
    user document whose sessions list holds the token, and [None] exactly
    when the token is empty or no sessions list holds it, so that an empty
    token resolves to nobody even if a sessions list holds the empty
    string. *)
Theorem get_user_by_token_spec token db :
  (get_user_by_token token db).2 = db ∧
  (∀ u, (get_user_by_token token db).1 = Return (Some u) ↔
        token ≠ "" ∧ ∃ before after,
          first_with (λ v, holds v token) (user db) u before after) ∧
  ((get_user_by_token token db).1 = Return None ↔
   token = "" ∨ ∀ v, v ∈ user db → ¬ holds v token) ∧
  (∀ e, (get_user_by_token token db).1 ≠ Raise e).
Proof.
  pose proof (get_user_by_token_Some token db) as HSome.
  pose proof (get_user_by_token_None token db) as HNone.
  rewrite get_user_by_token_eq in *. simpl.
  split; [done|]. split; [|split; [|done]].
  - intros u. rewrite <- HSome. split; [by intros [= ->] | by intros [= ->]].
  - rewrite <- HNone. split; [by intros [= ->] | by intros [= ->]].
Qed.

Lemma require_auth_returns token db u :
  (require_auth token db).1 = Return u ↔ resolves token db u.
Proof.
  rewrite require_auth_eq. destruct token as [t|].
  - rewrite resolves_Some, get_user_by_token_eq. simpl.
    destruct (if bool_decide _ then _ else _) as [v|]; simpl;
      split; intros [=]; by subst.
  - split; [done | by intros ?%resolves_None].
Qed.

(** [require_auth] reads only.  It answers 401 "Missing token" without a
    token, 401 "Invalid token" for an empty token and for a token that no
    sessions list holds, and it returns a user exactly when the token
    resolves to that user. *)
Theorem require_auth_spec token db :
  (require_auth token db).2 = db ∧
  (token = None →
   (require_auth token db).1 = Raise (HTTPException 401 "Missing token")) ∧
  (∀ t, token = Some t → t = "" ∨ (∀ v, v ∈ user db → ¬ holds v t) →
     (require_auth token db).1 = Raise (HTTPException 401 "Invalid token")) ∧
  (∀ u, (require_auth token db).1 = Return u ↔ resolves token db u).
Proof.
  rewrite require_auth_eq. split; [|split; [|split]].
  - destruct token as [t|]; [|done].
    by destruct (get_user_by_token t db).1 as [[u|]|].
  - by intros ->.
  - intros t -> Hnone. apply get_user_by_token_None in Hnone. by rewrite Hnone.
  - intros u. rewrite <- (require_auth_returns token db u).
    by rewrite require_auth_eq.
Qed.

(** [require_admin] reads only.  It returns a user exactly when the token
    resolves to that user and the user's [is_admin] is true; it answers
    403 exactly when the token resolves to a user whose [is_admin] is
    false or absent, and 401 exactly when the token resolves to nobody. *)
Theorem require_admin_spec token db :
  (require_admin token db).2 = db ∧
  (∀ u, (require_admin token db).1 = Return u ↔
        resolves token db u ∧ u_is_admin u = Some true) ∧
  (status_of (require_admin token db).1 = 403 ↔
   ∃ u, resolves token db u ∧ u_is_admin u ≠ Some true) ∧
  (status_of (require_admin token db).1 = 401 ↔ ∀ u, ¬ resolves token db u).
Proof.
  pose proof (require_auth_returns token db) as Hauth.
  rewrite require_admin_eq.
  destruct (require_auth token db).1 as [u|e] eqn:Hrun.
  - assert (resolves token db u) as Hu by by apply Hauth.
    assert (∀ v, resolves token db v → v = u) as Hsame.
    { intros v Hv. unfold resolves in *. congruence. }
    split; [by destruct (negb _)|]. split; [|split].
    + intros v. destruct (u_is_admin u) as [[]|] eqn:Hflag; simpl.
      * split; [by intros [= ->] | by intros [->%Hsame _]].
      * split; [done | intros [->%Hsame ?]; congruence].
      * split; [done | intros [->%Hsame ?]; congruence].
    + destruct (u_is_admin u) as [[]|] eqn:Hflag; simpl.
      * split; [done | intros (v & ->%Hsame & ?); congruence].
      * split; [intros _; exists u; split; [done | congruence] | done].
      * split; [intros _; exists u; split; [done | congruence] | done].
    + destruct (u_is_admin u) as [[]|]; simpl;
        (split; [done | intros Hnone; by destruct (Hnone u)]).
  - assert (∀ v, ¬ resolves token db v) as Hnone.
    { intros v Hv. apply Hauth in Hv. done. }
    assert (e = HTTPException 401 "Missing token" ∨
            e = HTTPException 401 "Invalid token") as He.
    { rewrite require_auth_eq in Hrun. destruct token as [t|]; simpl in Hrun.
      - destruct (get_user_by_token t db).1 as [[v|]|]; simplify_eq/=; auto.
      - simplify_eq/=. auto. }
    split; [done|]. split; [|split].
    + intros v. split; [done | by intros [?%Hnone _]].
    + split; [by destruct He as [-> | ->] | by intros (v & ?%Hnone & _)].
    + by destruct He as [-> | ->].
Qed.

(** ** The inline guard of the two create handlers *)

Lemma create_status (A : Type) (ok : User → outcome A * Database) token db :
  (∀ u, status_of (ok u).1 = 200) →
  status_of (match (get_user_by_token (or_empty token) db).1 with
             | Return (Some u) =>
                 if negb (default false (u_is_admin u))
                 then (Raise (HTTPException 403 "Admin only"), db)
                 else ok u
             | _ => (Raise (HTTPException 403 "Admin only"), db)
             end).1
  = match status_of (require_admin token db).1 with
    | 200 => 200
    | _ => 403
    end.
Proof.
  intros Hok. rewrite require_admin_eq, require_auth_eq.
  destruct token as [t|].
  - rewrite or_empty_Some_eq.
    destruct (get_user_by_token t db).1 as [[u|]|]; simpl; try done.
    destruct (negb _); [done|]. apply Hok.
  - by rewrite get_user_by_token_eq.
Qed.

(** [create_club] and [create_event] let through exactly the requests
    that [require_admin] lets through, and they answer 403 to all the
    others, also to those that [require_admin] answers with 401. *)
Theorem inline_guard_agrees_with_require_admin club_body event_body token db :
  status_of (create_club club_body token db).1
  = match status_of (require_admin token db).1 with
    | 200 => 200
    | _ => 403
    end ∧
  status_of (create_event event_body token db).1
  = match status_of (require_admin token db).1 with
    | 200 => 200
    | _ => 403
    end.
Proof.
  rewrite create_club_eq, create_event_eq. split.
  - by apply (create_status _ (λ u, (Return _, stored "club" _ db))).
  - by apply (create_status _ (λ u, (Return _, stored "event" _ db))).
Qed.

(** [create_event] answers 403, and leaves the database as it was, when
    the token is missing, when no user holds it, and when it resolves to a
    user whose [is_admin] is not true.  When the token resolves to an
    admin, one document is appended to the [event] collection and nothing
    else is stored: its fields are the title, description, date and
    [club_id] of the request, whatever club the [club_id] names or fails
    to name, and [created_by]; the response is these fields and, under
    ["id"], the text of the id of the new document. *)
Theorem create_event_spec body token db :
  let denied := (Raise (HTTPException 403 "Admin only"), db) in
  (token = None → create_event body token db = denied) ∧
  (∀ t, token = Some t → (∀ v, v ∈ user db → ¬ holds v t) →
     create_event body token db = denied) ∧
  (∀ u, resolves token db u → u_is_admin u ≠ Some true →
     create_event body token db = denied) ∧
  (∀ u, resolves token db u → u_is_admin u = Some true →
     let data : gmap string value :=
       {[ "title" := VStr (ev_title body);
          "description" := opt_str (ev_description body);
          "date" := VDate (ev_date body);
          "club_id" := opt_str (ev_club_id body);
          "created_by" := VStr (py_str (opt_str (u_email u))) ]} in
     let db' := stored "event" data db in
     create_event body token db
     = (Return (<["id" := VStr (str_oid (next_oid db))]> data), db') ∧
     user db' = user db ∧
     collection "event" db'
     = collection "event" db ++ [{| doc_id := next_oid db; doc_fields := data |}] ∧
     (∀ name, name ≠ "event" → collection name db' = collection name db)).
Proof.
  intros denied. rewrite create_event_eq. split; [|split; [|split]].
  - by intros ->.
  - intros t -> Hnone.
    assert (get_user_by_token (or_empty (Some t)) db = (Return None, db)) as ->; [|done].
    apply get_user_by_token_None. rewrite or_empty_Some_eq. by right.
  - intros u Hu Hadmin. unfold resolves in Hu. rewrite Hu. simpl.
    by destruct (u_is_admin u) as [[]|].
  - intros u Hu Hadmin data db'. unfold resolves in Hu. rewrite Hu. simpl.
    rewrite Hadmin. simpl. split; [|split; [|split]].
    + by rewrite (insert_union_singleton_r data "id").
    + done.
    + by apply collection_stored_same.
    + intros name Hne. by apply collection_stored_other.
Qed.

(** ** Creating, then listing *)

Local Abbreviation club_data_of body u :=
  ({[ "name" := VStr (club_name body);
      "description" := opt_str (club_description body);
      "created_by" := VStr (py_str (opt_str (u_email u))) ]} : gmap string value).

Local Abbreviation event_data_of body u :=
  ({[ "title" := VStr (ev_title body);
      "description" := opt_str (ev_description body);
      "date" := VDate (ev_date body);
      "club_id" := opt_str (ev_club_id body);
      "created_by" := VStr (py_str (opt_str (u_email u))) ]} : gmap string value).

(** The item a list handler shows for a document that the gateway stored
    from a dict without the key ["_id"]. *)
Lemma rename_id_stored id (data : gmap string value) :
  data !! "_id" = None →
  rename_id (to_dict {| doc_id := id; doc_fields := data |})
  = Return (<["id" := VStr (str_oid id)]> data).
Proof.
  intros Hnone. rewrite rename_id_to_dict. unfold to_dict. simpl.
  by rewrite delete_insert_eq, delete_id.
Qed.

Lemma for_each_snoc {A B} (body : A → outcome B) items last items' last' :
  for_each body items = Return items' → body last = Return last' →
  for_each body (items ++ [last]) = Return (items' ++ [last']).
Proof.
  revert items'. induction items as [|it rest IH]; intros items' Hitems Hlast; simpl in *.
  - simplify_eq. by rewrite Hlast.
  - destruct (body it) as [it'|]; [|done].
    destruct (for_each body rest) as [rest'|]; [|done]. simplify_eq.
    by rewrite (IH rest').
Qed.

Lemma list_after_stored name (data : gmap string value) db :
  data !! "_id" = None →
  ∃ items,
    (items0 ← get_documents name; lift (for_each rename_id items0)) db
    = (Return items, db) ∧
    (items0 ← get_documents name; lift (for_each rename_id items0)) (stored name data db)
    = (Return (items ++ [<["id" := VStr (str_oid (next_oid db))]> data]),
       stored name data db).
Proof.
  intros Hnone.
  destruct (for_each_rename_id (collection name db)) as (items & Hrun & _).
  exists items. unfold mbind, handler_bind, get_documents, lift.
  rewrite Hrun. split; [done|].
  rewrite collection_stored_same, map_app. simpl.
  by rewrite (for_each_snoc _ _ _ items _ Hrun (rename_id_stored _ _ Hnone)).
Qed.

(** After a [create_club] that returned, [list_clubs] returns what it
    returned before, followed by the response of the [create_club]; the
    list of events is as before. *)
Theorem create_club_then_list body token db response db' :
  create_club body token db = (Return response, db') →
  ∃ clubs events,
    list_clubs db = (Return clubs, db) ∧
    list_clubs db' = (Return (clubs ++ [response]), db') ∧
    list_events db = (Return events, db) ∧
    list_events db' = (Return events, db').
Proof.
  rewrite create_club_eq.
  destruct (get_user_by_token _ _).1 as [[u|]|]; try done.
  destruct (negb _); [done|]. intros [= <- <-].
  rewrite <- (insert_union_singleton_r _ "id") by done.
  destruct (list_after_stored "club" (club_data_of body u) db) as (clubs & Hbefore & Hafter);
    [done|].
  destruct (for_each_rename_id (collection "event" db)) as (events & Hevents & _).
  exists clubs, events. split; [done|]. split; [done|].
  unfold list_events, mbind, handler_bind, get_documents, lift.
  rewrite collection_stored_other by done. by rewrite Hevents.
Qed.


(** ** What one request can do *)

Section Requests.

Variable sha256_hexdigest : string → string.
Variable getenv : string → option string.

Local Abbreviation hash_password := (hash_password sha256_hexdigest getenv).
Local Abbreviation register := (register sha256_hexdigest getenv).
Local Abbreviation login := (login sha256_hexdigest getenv).
Local Abbreviation handle := (handle sha256_hexdigest getenv).
Local Abbreviation reachable := (reachable sha256_hexdigest getenv).

(** The user document that [register] inserts, before its token is
    pushed. *)
Local Abbreviation inserted db body :=
  {| u_id := next_oid db; u_name := Some (reg_name body);
     u_email := Some (reg_email body);
     u_password_hash := Some (hash_password (reg_password body));
     u_is_admin := Some (Nat.eqb (length (user db)) 0);
     u_sessions := [] |}.

Lemma handle_bind_eq {A} (m : handler A) (k : A → response) db :
  (r ← m; mret (k r)) db
  = (match (m db).1 with
     | Return a => Return (k a)
     | Raise e => Raise e
     end, (m db).2).
Proof.
  unfold mbind, handler_bind, mret, handler_ret. by destruct (m db) as [[a|e] db'].
Qed.

Lemma list_collection_returns name db :
  ∃ items,
    (items0 ← get_documents name; lift (for_each rename_id items0)) db
    = (Return items, db).
Proof.
  destruct (for_each_rename_id (collection name db)) as (items & Hrun & _).
  exists items. unfold mbind, handler_bind, get_documents, lift. by rewrite Hrun.
Qed.

Lemma test_database_returns env hdb : ∃ r, test_database env hdb = Return r.
Proof.
  unfold test_database, try_except, mbind at 1, outcome_bind at 1.
  destruct (test_database_probe env hdb); by eexists.
Qed.

(** The outcome and the state after each request, case by case. *)
Lemma handle_cases hdb tok req db :
  match req with
  | ReadRoot => handle hdb tok req db = (Return (Json read_root), db)
  | Register body =>
      ((∃ u, u ∈ user db ∧ u_email u = Some (reg_email body)) ∧
       handle hdb tok req db
       = (Raise (HTTPException 400 "Email already registered"), db)) ∨
      ((∀ u, u ∈ user db → u_email u ≠ Some (reg_email body)) ∧
       ∃ r, handle hdb tok req db
            = (Return (Auth r),
               {| user := update_one (by_id (next_oid db)) (push_session tok)
                            (user db ++ [inserted db body]);
                  collections := collections db;
                  next_oid := N.succ (next_oid db) |}))
  | Login body =>
      handle hdb tok req db = (Raise (HTTPException 401 "Invalid credentials"), db) ∨
      ∃ r u, handle hdb tok req db
             = (Return (Auth r),
                set_user (update_one (by_id (u_id u)) (push_session tok) (user db)) db)
  | Logout token =>
      handle hdb tok req db = (Return (Json {[ "success" := VBool true ]}), db) ∨
      ∃ u, handle hdb tok req db
           = (Return (Json {[ "success" := VBool true ]}),
              set_user (update_one (by_id (u_id u)) (pull_session token) (user db)) db)
  | ListClubs | ListEvents =>
      ∃ items, handle hdb tok req db = (Return (JsonList items), db)
  | CreateClub body token =>
      handle hdb tok req db = (Raise (HTTPException 403 "Admin only"), db) ∨
      ∃ r data, handle hdb tok req db = (Return (Json r), stored "club" data db)
  | CreateEvent body token =>
      handle hdb tok req db = (Raise (HTTPException 403 "Admin only"), db) ∨
      ∃ r data, handle hdb tok req db = (Return (Json r), stored "event" data db)
  | TestDatabase => ∃ r, handle hdb tok req db = (Return (Json r), db)
  end.
Proof.
  destruct req; unfold handle; rewrite ?handle_bind_eq.
  - done.
  - destruct (find_one (by_email (reg_email body)) (user db)) as [v|] eqn:Hfind.
    + left. rewrite (register_taken _ _ _ _ _ v) by done. split; [|done].
      apply find_one_Some in Hfind as (before & after & -> & Hv & _).
      exists v. split; [|by apply by_email_true]. apply elem_of_app. right. left.
    + right. rewrite register_new by done.
      split; [by apply find_by_email_None | by eexists].
  - rewrite login_eq. destruct (find_one _ _) as [u|]; [|by left].
    case_bool_decide; [by left | right; by eexists _, u].
  - rewrite logout_eq. simpl.
    destruct (get_user_by_token _ _).1 as [[u|]|]; [right; by exists u | by left..].
  - destruct (list_collection_returns "club" db) as (items & Hrun).
    unfold list_clubs. rewrite Hrun. by eexists.
  - rewrite create_club_eq.
    destruct (get_user_by_token _ _).1 as [[u|]|]; [|by left..].
    destruct (negb _); [by left | right; by eexists _, _].
  - destruct (list_collection_returns "event" db) as (items & Hrun).
    unfold list_events. rewrite Hrun. by eexists.
  - rewrite create_event_eq.
    destruct (get_user_by_token _ _).1 as [[u|]|]; [|by left..].
    destruct (negb _); [by left | right; by eexists _, _].
  - unfold lift. destruct (test_database_returns getenv hdb) as (r & ->). by eexists.
Qed.

(** Case analysis on the request, with the equation of [handle_cases]
    rewritten everywhere. *)
Ltac by_handle_cases req Hcases :=
  destruct req; cbv beta iota in Hcases;
  repeat match type of Hcases with
         | _ ∨ _ => destruct Hcases as [Hcases|Hcases]
         | _ ∧ _ => let H := fresh "Hcase" in destruct Hcases as [H Hcases]
         | ∃ _, _ => let x := fresh "x" in destruct Hcases as [x Hcases]
         end;
  rewrite Hcases.

(** A request that raises leaves the database as it was: every handler
    raises before its first write. *)
Theorem failed_request_changes_nothing hdb tok req db e :
  (handle hdb tok req db).1 = Raise e → (handle hdb tok req db).2 = db.
Proof.
  pose proof (handle_cases hdb tok req db) as Hcases.
  by_handle_cases req Hcases; done.
Qed.

(** The status of every answer, when the calls to the database return:
    200 or 400 for a registration, 200 or 401 for a login, 200 or 403 for
    the two create handlers, and 200 for every other request.  A handler
    raises nothing but its own [HTTPException]; in particular the
    [pop("_id")] of the list handlers finds its key in every document. *)
Theorem request_statuses hdb tok req db :
  let status := status_of (handle hdb tok req db).1 in
  match req with
  | Register _ => status = 200 ∨ status = 400
  | Login _ => status = 200 ∨ status = 401
  | CreateClub _ _ | CreateEvent _ _ => status = 200 ∨ status = 403
  | ReadRoot | Logout _ | ListClubs | ListEvents | TestDatabase => status = 200
  end.
Proof.
  pose proof (handle_cases hdb tok req db) as Hcases.
  by_handle_cases req Hcases; simpl; auto.
Qed.

(** What each request may write.  The four reading requests change
    nothing; a registration, a login and a logout leave every collection
    of the gateway as it was; [create_club] and [create_event] leave the
    users, and every collection but their own, as they were. *)
Theorem request_frame hdb tok req db :
  let db' := (handle hdb tok req db).2 in
  match req with
  | ReadRoot | ListClubs | ListEvents | TestDatabase => db' = db
  | Register _ | Login _ | Logout _ => collections db' = collections db
  | CreateClub _ _ =>
      user db' = user db ∧
      ∀ name, name ≠ "club" → collection name db' = collection name db
  | CreateEvent _ _ =>
      user db' = user db ∧
      ∀ name, name ≠ "event" → collection name db' = collection name db
  end.
Proof.
  pose proof (handle_cases hdb tok req db) as Hcases.
  by_handle_cases req Hcases; simpl; try done;
    (split; [done|]); intros name Hne; by apply collection_stored_other.
Qed.

(** The documents of the gateway's collections are never changed and
    never removed: after a request each collection is the former one,
    followed by at most one new document. *)
Theorem documents_append_only hdb tok req db name :
  ∃ new, collection name (handle hdb tok req db).2 = collection name db ++ new ∧
         (length new ≤ 1)%nat.
Proof.
  assert (∀ db', collections db' = collections db →
            ∃ new, collection name db' = collection name db ++ new ∧ (length new ≤ 1)%nat)
    as Hsame.
  { intros db' Heq. exists []. unfold collection. rewrite Heq, app_nil_r.
    split; [done | simpl; lia]. }
  assert (∀ name' data,
            ∃ new, collection name (stored name' data db) = collection name db ++ new ∧
                   (length new ≤ 1)%nat) as Hstored.
  { intros name' data. destruct (decide (name' = name)) as [->|Hne].
    - eexists. split; [by rewrite collection_stored_same | simpl; lia].
    - exists []. rewrite collection_stored_other, app_nil_r by done.
      split; [done | simpl; lia]. }
  pose proof (handle_cases hdb tok req db) as Hcases.
  by_handle_cases req Hcases; first [apply Hstored | by apply Hsame].
Qed.

(** ** What one request does to the users *)

Lemma update_one_lookup_inv {D} (query : D → bool) (update : D → D) coll i d' :
  update_one query update coll !! i = Some d' →
  ∃ d, coll !! i = Some d ∧ (d' = d ∨ d' = update d).
Proof.
  intros Hi.
  destruct (coll !! i) as [d|] eqn:Hd.
  - exists d. split; [done|].
    destruct (update_one_lookup query update coll i d Hd) as [H|H];
      rewrite H in Hi; simplify_eq; auto.
  - apply lookup_ge_None in Hd. rewrite <- (update_one_length query update) in Hd.
    apply lookup_ge_None in Hd. congruence.
Qed.

Lemma same_profile_refl u : same_profile u u.
Proof. by repeat split. Qed.

Lemma same_profile_push tok u : same_profile u (push_session tok u).
Proof. by repeat split. Qed.

Lemma same_profile_pull token u : same_profile u (pull_session token u).
Proof. destruct token; by repeat split. Qed.

Lemma holds_push_inv tok u t : holds (push_session tok u) t → holds u t ∨ t = tok.
Proof.
  unfold holds. simpl. intros [?|Ht%list_elem_of_singleton]%elem_of_app; auto.
Qed.

Lemma holds_pull_inv token u t : holds (pull_session token u) t → holds u t.
Proof.
  unfold holds. destruct token as [t'|]; simpl; [|done].
  by intros [_ ?]%list_elem_of_filter.
Qed.

(** The users after a request: the users before, one of them possibly
    with a token pushed (registration, login) or pulled (logout), and, for
    a registration that returned, the inserted user at the end. *)
Lemma handle_users_shape hdb tok req db :
  ∃ (query : User → bool) (update : User → User) (extra : list User),
    user (handle hdb tok req db).2 = update_one query update (user db ++ extra) ∧
    (update = id ∨
     (update = push_session tok ∧
      match req with Register _ | Login _ => True | _ => False end) ∨
     (∃ token, update = pull_session token)) ∧
    (extra = [] ∨
     ∃ body, req = Register body ∧ extra = [inserted db body] ∧
             status_of (handle hdb tok req db).1 = 200).
Proof.
  assert (∀ o, ∃ (query : User → bool) (update : User → User) (extra : list User),
    user (o, db).2 = update_one query update (user db ++ extra) ∧
    (update = id ∨
     (update = push_session tok ∧
      match req with Register _ | Login _ => True | _ => False end) ∨
     (∃ token, update = pull_session token)) ∧
    (extra = [] ∨
     ∃ body, req = Register body ∧ extra = [inserted db body] ∧
             status_of (o : outcome response) = 200)) as Hsame.
  { intros o. exists (λ _, false), id, [].
    rewrite app_nil_r, update_one_miss; [auto | by apply Forall_forall]. }
  pose proof (handle_cases hdb tok req db) as Hcases.
  by_handle_cases req Hcases; try apply Hsame.
  - eexists _, _, _. split; [done|]. split; [by right; left | right; by eexists].
  - eexists _, _, []. rewrite app_nil_r. split; [done|]. split; [by right; left | by left].
  - eexists _, _, []. rewrite app_nil_r. split; [done|].
    split; [right; right; by eexists | by left].
Qed.

(** No request changes the [_id], the name, the email, the password hash
    or the [is_admin] of a stored user, removes a user, or moves one: the
    user document at each place of the collection keeps all of these. *)
Theorem profiles_never_change hdb tok req db i u :
  user db !! i = Some u →
  ∃ v, user (handle hdb tok req db).2 !! i = Some v ∧ same_profile u v.
Proof.
  intros Hi.
  destruct (handle_users_shape hdb tok req db)
    as (query & update & extra & -> & Hupdate & _).
  assert ((user db ++ extra) !! i = Some u) as Hi' by by apply lookup_app_l_Some.
  destruct (update_one_lookup query update _ _ _ Hi') as [->| ->].
  - exists u. split; [done | apply same_profile_refl].
  - exists (update u). split; [done|].
    destruct Hupdate as [->|[[-> _]|[token ->]]];
      [apply same_profile_refl | apply same_profile_push | apply same_profile_pull].
Qed.

(** The number of users grows by one with a registration that returns,
    and with nothing else. *)
Theorem users_grow_by_registration_only hdb tok req db :
  length (user (handle hdb tok req db).2)
  = (length (user db) +
     match req with
     | Register _ => if Nat.eqb (status_of (handle hdb tok req db).1) 200 then 1 else 0
     | _ => 0
     end)%nat.
Proof.
  pose proof (handle_cases hdb tok req db) as Hcases.
  by_handle_cases req Hcases; simpl;
    rewrite ?update_one_length, ?length_app; simpl; lia.
Qed.

(** A token in a sessions list after a request was in the sessions list
    of the same user before it, or it is the token that this request, a
    registration or a login, drew. *)
Theorem session_tokens_only_issued hdb tok req db i v t :
  user (handle hdb tok req db).2 !! i = Some v → holds v t →
  (∃ u, user db !! i = Some u ∧ holds u t) ∨
  (t = tok ∧ match req with Register _ | Login _ => True | _ => False end).
Proof.
  destruct (handle_users_shape hdb tok req db)
    as (query & update & extra & -> & Hupdate & Hextra).
  intros Hi Ht.
  apply update_one_lookup_inv in Hi as (w & Hw & Hv).
  assert (holds w t ∨
          (t = tok ∧ match req with Register _ | Login _ => True | _ => False end))
    as [Hwt|Hdrawn]; [| |by right].
  { destruct Hv as [-> | ->]; [by left|].
    destruct Hupdate as [->|[[-> Hreq]|[token ->]]].
    - by left.
    - apply holds_push_inv in Ht as [? | ->]; auto.
    - left. by eapply holds_pull_inv. }
  apply lookup_app_Some in Hw as [Hw|[_ Hw]]; [left; by exists w|].
  destruct Hextra as [->|(body & _ & -> & _)]; [done|].
  destruct (i - length (user db))%nat; simplify_eq/=.
  by apply elem_of_nil in Hwt.
Qed.

(** ** What every run keeps *)



Lemma pull_session_is_admin token u : u_is_admin (pull_session token u) = u_is_admin u.
Proof. by destruct token. Qed.

Lemma stored_emails_unique name data db :
  emails_unique db → emails_unique (stored name data db).
Proof. done. Qed.


(** The admin flags of a collection in which the first user is the only
    admin. *)
Lemma only_first_admin_flags db :
  only_first_admin db ↔
  match map u_is_admin (user db) with
  | [] => True
  | first :: others => first = Some true ∧ Forall (λ f, f = Some false) others
  end.
Proof.
  unfold only_first_admin. destruct (user db) as [|u us]; simpl; [done|].
  by rewrite Forall_fmap.
Qed.

Lemma handle_only_first_admin hdb tok req db :
  only_first_admin db → only_first_admin (handle hdb tok req db).2.
Proof.
  rewrite !only_first_admin_flags. intros Hflags.
  pose proof (handle_cases hdb tok req db) as Hcases.
  by_handle_cases req Hcases; simpl; try done.
  - rewrite update_one_map by done. rewrite map_app. simpl.
    destruct (user db) as [|u us]; simpl in *; [by split|].
    destruct Hflags as [Hfirst Hothers]. split; [done|].
    apply Forall_app. split; [done | by repeat constructor].
  - by rewrite update_one_map.
  - rewrite update_one_map; [done | apply pull_session_is_admin].
Qed.

(** In every state that requests reach from the empty database, the ids
    of each collection are unique and older than the next id. *)
Theorem reachable_ids_unique db : reachable db → wf db.
Proof.
  induction 1 as [|hdb tok req db _ IH]; [apply wf_empty_db | by apply handle_wf].
Qed.


(** In every state that requests, served one after the other, reach from
    the empty database, the first user registered is an admin and no
    other user is: no request grants or revokes [is_admin]. *)
Theorem reachable_only_first_admin db : reachable db → only_first_admin db.
Proof.
  induction 1 as [|hdb tok req db _ IH]; [done | by apply handle_only_first_admin].
Qed.

(** In every reachable state each user document has a name, an email, a
    password hash and an [is_admin]: the defaults of [dict.get] in
    [login] and in the guards are never used. *)
Theorem reachable_users_complete db :
  reachable db →
  Forall (λ u, is_Some (u_name u) ∧ is_Some (u_email u) ∧
               is_Some (u_password_hash u) ∧ is_Some (u_is_admin u)) (user db).
Proof.
  induction 1 as [|hdb tok req db _ IH]; [constructor|].
  apply Forall_lookup. intros i v Hi.
  destruct (handle_users_shape hdb tok req db)
    as (query & update & extra & Husers & Hupdate & Hextra).
  rewrite Husers in Hi. apply update_one_lookup_inv in Hi as (w & Hw & Hv).
  assert (is_Some (u_name w) ∧ is_Some (u_email w) ∧
          is_Some (u_password_hash w) ∧ is_Some (u_is_admin w)) as Hw'.
  { apply lookup_app_Some in Hw as [Hw|[_ Hw]].
    - by apply (Forall_lookup_1 _ _ _ _ IH Hw).
    - destruct Hextra as [->|(body & _ & -> & _)]; [done|].
      destruct (i - length (user db))%nat; simplify_eq/=. by repeat split. }
  destruct Hv as [-> | ->]; [done|].
  destruct Hupdate as [->|[[-> _]|[token ->]]]; [done | done | by destruct token].
Qed.

(** ** Registering, logging in and out, and using the token *)

(** A registration that returned, in a database whose ids are unique. *)
Lemma register_returns tok body db r db' :
  wf db → register tok body db = (Return r, db') →
  (∀ u, u ∈ user db → u_email u ≠ Some (reg_email body)) ∧
  r = {| resp_token := tok; resp_is_admin := Nat.eqb (length (user db)) 0;
         resp_name := reg_name body; resp_email := reg_email body |} ∧
  db' = {| user := user db ++ [push_session tok (inserted db body)];
           collections := collections db;
           next_oid := N.succ (next_oid db) |}.
Proof.
  intros [[_ Hlt] _] Hrun.
  destruct (find_one (by_email (reg_email body)) (user db)) as [v|] eqn:Hfind.
  { by rewrite (register_taken _ _ _ _ _ v) in Hrun. }
  rewrite register_new in Hrun by done. simplify_eq.
  split; [by apply find_by_email_None|]. split; [done|].
  rewrite update_one_hit; [done| |by apply by_id_true].
  apply Forall_forall. intros v Hv. apply by_id_false. intros Heq.
  rewrite Forall_forall in Hlt.
  assert (u_id v < next_oid db)%N; [|lia].
  apply Hlt, list_elem_of_fmap. by exists v.
Qed.

(** A login that returned, in a database whose ids are unique. *)
Lemma login_returns tok body db r db' :
  wf db → login tok body db = (Return r, db') →
  ∃ u before after,
    first_with (λ v, u_email v = Some (login_email body)) (user db) u before after ∧
    u_password_hash u = Some (hash_password (login_password body)) ∧
    r = {| resp_token := tok; resp_is_admin := default false (u_is_admin u);
           resp_name := default "" (u_name u); resp_email := login_email body |} ∧
    db' = set_user (before ++ push_session tok u :: after) db.
Proof.
  intros [[Hnd _] _]. rewrite login_eq.
  destruct (find_one _ _) as [u|] eqn:Hfind; [|done].
  case_bool_decide as Hhash; [done|]. intros [= <- <-].
  apply first_with_email_find in Hfind as (before & after & Hfirst).
  exists u, before, after. split; [done|].
  split; [by destruct (decide (u_password_hash u = Some (hash_password (login_password body))))|].
  destruct Hfirst as (Hsplit & -> & _). split; [done|].
  rewrite Hsplit in Hnd |- *. by rewrite update_by_id.
Qed.

Lemma not_held_before (before : list User) t :
  (∀ v, v ∈ before → ¬ holds v t) → Forall (λ v, ¬ holds v t) before.
Proof. intros H. by apply Forall_forall. Qed.

Lemma register_then_token_resolves_aux tok body db r db' :
  wf db → tok ≠ "" → (∀ v, v ∈ user db → ¬ holds v tok) →
  register tok body db = (Return r, db') →
  ∃ u, resolves (Some (resp_token r)) db' u ∧
       u_is_admin u = Some (resp_is_admin r) ∧
       resp_is_admin r = Nat.eqb (length (user db)) 0.
Proof.
  intros Hwf Htok Hfresh Hrun.
  destruct (register_returns _ _ _ _ _ Hwf Hrun) as (_ & -> & ->).
  exists (push_session tok (inserted db body)). split; [|done].
  apply resolves_Some, get_user_by_token_Some. split; [done|].
  exists (user db), []. split; [done|]. split; [left|].
  by apply not_held_before.
Qed.

(** The token of a login resolves to the user who logged in, when the
    token is not empty and was in no sessions list before. *)
Theorem login_then_token_resolves tok body db r db' :
  wf db → tok ≠ "" → (∀ v, v ∈ user db → ¬ holds v tok) →
  login tok body db = (Return r, db') →
  ∃ u, resolves (Some (resp_token r)) db' u ∧
       u_email u = Some (login_email body) ∧
       default false (u_is_admin u) = resp_is_admin r.
Proof.
  intros Hwf Htok Hfresh Hrun.
  destruct (login_returns _ _ _ _ _ Hwf Hrun)
    as (u & before & after & (Hsplit & Hemail & _) & _ & -> & ->).
  exists (push_session tok u). split; [|done].
  apply resolves_Some, get_user_by_token_Some. split; [done|].
  exists before, after. split; [done|]. split; [apply elem_of_app; right; left|].
  apply not_held_before. intros v Hv. apply Hfresh. rewrite Hsplit.
  apply elem_of_app. by left.
Qed.

(** The token of a registration resolves to the new user, when the token
    is not empty and was in no sessions list before. *)
Theorem register_then_token_resolves tok body db r db' :
  wf db → tok ≠ "" → (∀ v, v ∈ user db → ¬ holds v tok) →
  register tok body db = (Return r, db') →
  ∃ u, resolves (Some (resp_token r)) db' u ∧
       u_email u = Some (reg_email body) ∧
       u_is_admin u = Some (resp_is_admin r) ∧
       u_sessions u = [resp_token r].
Proof.
  intros Hwf Htok Hfresh Hrun.
  destruct (register_returns _ _ _ _ _ Hwf Hrun) as (_ & -> & ->).
  exists (push_session tok (inserted db body)). split; [|done].
  apply resolves_Some, get_user_by_token_Some. split; [done|].
  exists (user db), []. split; [done|]. split; [left|].
  by apply not_held_before.
Qed.

(** After a registration that returned, a login with the same email and
    password returns, with the name, the email and the [is_admin] that the
    registration returned. *)
Theorem register_then_login tok body db r db' tok' :
  wf db → register tok body db = (Return r, db') →
  ∃ db'',
    login tok' {| login_email := reg_email body; login_password := reg_password body |} db'
    = (Return {| resp_token := tok'; resp_is_admin := resp_is_admin r;
                 resp_name := resp_name r; resp_email := resp_email r |}, db'').
Proof.
  intros Hwf Hrun.
  destruct (register_returns _ _ _ _ _ Hwf Hrun) as (Hnew & -> & ->).
  rewrite login_eq. simpl.
  assert (find_one (by_email (reg_email body))
            (user db ++ [push_session tok (inserted db body)])
          = Some (push_session tok (inserted db body))) as ->.
  { apply find_one_Some. exists (user db), []. split; [done|].
    split; [by apply by_email_true|]. by apply find_one_None, find_by_email_None. }
  simpl. rewrite bool_decide_eq_false_2 by (by intros []). by eexists.
Qed.

Lemma filter_other_tokens (tok : string) (ss : list string) :
  tok ∉ ss → filter (λ s, s ≠ tok) ss = ss.
Proof.
  induction ss as [|s ss IH]; [done|].
  intros [Hne Hss]%not_elem_of_cons.
  rewrite filter_cons_True by done. by rewrite IH.
Qed.

Lemma pull_push_session tok u :
  ¬ holds u tok → pull_session (Some tok) (push_session tok u) = u.
Proof.
  unfold holds. intros Hfresh. destruct u as [id n e h a ss]. unfold pull_session,
    push_session, set_sessions. simpl in *. f_equal.
  rewrite filter_app, filter_cons_False, filter_nil by (intros Hne; by apply Hne).
  rewrite app_nil_r. by apply filter_other_tokens.
Qed.

(** A logout with the token of a login undoes the login: the database is
    again the one before the login, when the token is not empty and was
    in no sessions list before. *)
Theorem login_then_logout tok body db r db' :
  wf db → tok ≠ "" → (∀ v, v ∈ user db → ¬ holds v tok) →
  login tok body db = (Return r, db') →
  logout (Some (resp_token r)) db' = (Return {[ "success" := VBool true ]}, db).
Proof.
  intros Hwf Htok Hfresh Hrun.
  destruct (login_returns _ _ _ _ _ Hwf Hrun)
    as (u & before & after & (Hsplit & _ & _) & _ & -> & ->).
  destruct Hwf as [[Hnd _] _]. rewrite Hsplit in Hnd.
  cbn [resp_token]. rewrite logout_eq, or_empty_Some_eq.
  assert (get_user_by_token tok (set_user (before ++ push_session tok u :: after) db)
          = (Return (Some (push_session tok u)),
             set_user (before ++ push_session tok u :: after) db)) as ->.
  { apply get_user_by_token_Some. split; [done|].
    exists before, after. split; [done|]. split; [apply elem_of_app; right; left|].
    apply not_held_before. intros v Hv. apply Hfresh. rewrite Hsplit.
    apply elem_of_app. by left. }
  simpl. f_equal.
  rewrite (update_by_id before (push_session tok u) after) by by rewrite map_app in *.
  rewrite pull_push_session.
  - destruct db. unfold set_user. simpl in *. by rewrite Hsplit.
  - apply Hfresh. rewrite Hsplit. apply elem_of_app. right. left.
Qed.

(** After the logout of a token that one user holds, no user holds it,
    and [require_auth] answers 401 to it. *)
Theorem logout_then_token_invalid t db u before after :
  wf db → t ≠ "" →
  first_with (λ v, holds v t) (user db) u before after →
  (∀ v, v ∈ after → ¬ holds v t) →
  let db' := (logout (Some t) db).2 in
  (∀ v, v ∈ user db' → ¬ holds v t) ∧
  require_auth (Some t) db' = (Raise (HTTPException 401 "Invalid token"), db').
Proof.
  intros [[Hnd _] _] Ht Hfirst Hafter db'.
  assert (∀ v, v ∈ user db' → ¬ holds v t) as Hgone.
  { unfold db'. rewrite logout_eq, or_empty_Some_eq.
    assert (get_user_by_token t db = (Return (Some u), db)) as ->.
    { apply get_user_by_token_Some. eauto. }
    destruct Hfirst as (Hsplit & _ & Hbefore). simpl.
    rewrite Hsplit in Hnd |- *. rewrite update_by_id by done.
    rewrite Forall_forall in Hbefore.
    intros v [Hv|[->|Hv]%elem_of_cons]%elem_of_app; [by apply Hbefore| |by apply Hafter].
    unfold holds. simpl. intros [Hne _]%list_elem_of_filter. done. }
  split; [done|].
  rewrite require_auth_eq.
  assert (get_user_by_token t db' = (Return None, db')) as ->; [|done].
  apply get_user_by_token_None. by right.
Qed.

(** Whoever registers first can create clubs and events with the token
    of the registration. *)
Theorem first_registrant_is_let_through tok body db r db' club_body event_body :
  wf db → user db = [] → tok ≠ "" →
  register tok body db = (Return r, db') →
  resp_is_admin r = true ∧
  status_of (create_club club_body (Some (resp_token r)) db').1 = 200 ∧
  status_of (create_event event_body (Some (resp_token r)) db').1 = 200.
Proof.
  intros Hwf Hempty Htok Hrun.
  destruct (register_then_token_resolves_aux tok body db r db' Hwf Htok)
    as (u & Hu & Hadmin & Hr); [|done|].
  { rewrite Hempty. by intros v ?%elem_of_nil. }
  rewrite Hempty in Hr. simpl in Hr. unfold resolves in Hu.
  rewrite create_club_eq, create_event_eq, Hu. simpl. by rewrite Hadmin, Hr.
Qed.

(** Whoever registers later gets 403 from both create handlers with the
    token of the registration, when that token was in no sessions list
    before. *)
Theorem later_registrant_is_denied tok body db r db' club_body event_body :
  wf db → user db ≠ [] → tok ≠ "" → (∀ v, v ∈ user db → ¬ holds v tok) →
  register tok body db = (Return r, db') →
  resp_is_admin r = false ∧
  create_club club_body (Some (resp_token r)) db'
  = (Raise (HTTPException 403 "Admin only"), db') ∧
  create_event event_body (Some (resp_token r)) db'
  = (Raise (HTTPException 403 "Admin only"), db').
Proof.
  intros Hwf Hsome Htok Hfresh Hrun.
  destruct (register_then_token_resolves_aux tok body db r db' Hwf Htok Hfresh Hrun)
    as (u & Hu & Hadmin & Hr).
  assert (resp_is_admin r = false) as Hflag.
  { rewrite Hr. by destruct (user db). }
  unfold resolves in Hu.
  rewrite create_club_eq, create_event_eq, Hu. simpl. by rewrite Hadmin, Hflag.
Qed.

(** ** The diagnostic endpoint *)

(** Without a database (the handle is [None], or its truth test returns
    false), [test_database] reports that no database is available,
    without calling the handle again. *)
Theorem test_database_without_database (db : option DbHandle) :
  db_truth db = Return false →
  test_database getenv db
  = Return ({[ "database" := VStr "❌ Not Available";
               "database_url" :=
                 VStr (if getenv_truth getenv "DATABASE_URL" then "✅ Set" else "❌ Not Set");
               "database_name" := VNone;
               "connection_status" := VStr "Not Connected";
               "collections" := VList [] ]}
            ∪ {[ "backend" := VStr "✅ Running" ]}).
Proof.
  intros Hfalse.
  unfold test_database, test_database_probe, try_except, mbind, outcome_bind.
  by rewrite !Hfalse.
Qed.

(** With a handle whose truth test returns true and whose calls return,
    [test_database] reports the connection, the name of the database and
    the first ten collection names, in their order. *)
Theorem test_database_connected h names name :
  db_bool h = Return true →
  db_list_collection_names h = Return names →
  db_name h = Return name →
  test_database getenv (Some h)
  = Return ({[ "database" := VStr "✅ Connected & Working";
               "database_url" :=
                 VStr (if getenv_truth getenv "DATABASE_URL" then "✅ Set" else "❌ Not Set");
               "database_name" := VStr name;
               "connection_status" := VStr "Connected";
               "collections" := VList (take 10 names) ]}
            ∪ {[ "backend" := VStr "✅ Running" ]}) ∧
  (length (take 10 names) ≤ 10)%nat ∧
  ((length names ≤ 10)%nat → take 10 names = names).
Proof.
  intros Htrue Hnames Hname. split; [|split].
  - unfold test_database, test_database_probe, try_except, mbind, outcome_bind.
    simpl. by rewrite !Htrue, Hnames, Hname.
  - rewrite length_take. lia.
  - intros Hle. by apply take_ge.
Qed.

End Requests.

(** ** More theorems at sample data *)

(** A string is not in a list of other strings. *)
Ltac not_listed :=
  let Hin := fresh "Hin" in
  intros Hin;
  repeat (apply elem_of_cons in Hin as [Hin|Hin]; [discriminate Hin|]);
  by apply elem_of_nil in Hin.

Lemma demo_db_fresh_token : ∀ v, v ∈ user demo_db → ¬ holds v "tok-9".
Proof.
  intros v Hv. unfold holds.
  repeat (apply elem_of_cons in Hv as [->|Hv]); simpl; [not_listed..|].
  by apply elem_of_nil in Hv.
Qed.

Lemma reachable_first_db : reachable demo_sha demo_env first_db.
Proof. apply reachable_step, reachable_empty. Qed.

Lemma create_event_spec_witness :
  ∃ response,
    create_event chess_night (Some "tok-a1") demo_db
    = (Return response,
       stored "event"
         {[ "title" := VStr "Chess night"; "description" := VNone;
            "date" := VDate (ev_date chess_night);
            "club_id" := VStr "000000000000000000000004";
            "created_by" := VStr "alice@example.org" ]} demo_db).
Proof.
  destruct (create_event_spec chess_night (Some "tok-a1") demo_db) as (_ & _ & _ & Hadmin).
  destruct (Hadmin alice) as (Hrun & _); [reflexivity | reflexivity |].
  eexists. exact Hrun.
Defined.

Lemma create_club_then_list_witness :
  ∃ clubs events,
    list_clubs demo_db = (Return clubs, demo_db) ∧
    list_clubs (stored "club" go_club_data demo_db)
    = (Return (clubs ++ [<["id" := VStr (str_oid 5)]> go_club_data]),
       stored "club" go_club_data demo_db) ∧
    list_events demo_db = (Return events, demo_db) ∧
    list_events (stored "club" go_club_data demo_db)
    = (Return events, stored "club" go_club_data demo_db).
Proof.
  apply (create_club_then_list go_club (Some "tok-a1") demo_db).
  rewrite create_club_eq. simpl.
  by rewrite <- (insert_union_singleton_r _ "id").
Defined.


Lemma failed_request_changes_nothing_witness :
  (handle demo_sha demo_env None "tok-9" (Register bob_again) demo_db).2 = demo_db.
Proof.
  apply (failed_request_changes_nothing demo_sha demo_env None "tok-9"
           (Register bob_again) demo_db
           (HTTPException 400 "Email already registered")).
  reflexivity.
Defined.

Lemma profiles_never_change_witness :
  ∃ v, user (handle demo_sha demo_env None "tok-9" (Login alice_login) demo_db).2 !! 0
       = Some v ∧ same_profile alice v.
Proof.
  apply (profiles_never_change demo_sha demo_env None "tok-9" (Login alice_login)
           demo_db 0 alice).
  reflexivity.
Defined.

Lemma session_tokens_only_issued_witness :
  (∃ u, user demo_db !! 0 = Some u ∧ holds u "tok-9") ∨
  ("tok-9" = "tok-9" ∧ True).
Proof.
  apply (session_tokens_only_issued demo_sha demo_env None "tok-9" (Login alice_login)
           demo_db 0 (push_session "tok-9" alice) "tok-9").
  - reflexivity.
  - right. right. left.
Defined.

Lemma reachable_ids_unique_witness : wf first_db.
Proof.
  apply (reachable_ids_unique demo_sha demo_env first_db). exact reachable_first_db.
Defined.


Lemma reachable_only_first_admin_witness : only_first_admin first_db.
Proof.
  apply (reachable_only_first_admin demo_sha demo_env first_db). exact reachable_first_db.
Defined.

Lemma reachable_users_complete_witness :
  Forall (λ u, is_Some (u_name u) ∧ is_Some (u_email u) ∧
               is_Some (u_password_hash u) ∧ is_Some (u_is_admin u)) (user first_db).
Proof.
  apply (reachable_users_complete demo_sha demo_env first_db). exact reachable_first_db.
Defined.

Lemma login_then_token_resolves_witness :
  ∃ u, resolves (Some "tok-9") (login demo_sha demo_env "tok-9" alice_login demo_db).2 u ∧
       u_email u = Some "alice@example.org" ∧
       default false (u_is_admin u) = true.
Proof.
  apply (login_then_token_resolves demo_sha demo_env "tok-9" alice_login demo_db
           (alice_response "tok-9")).
  - exact wf_demo_db.
  - discriminate.
  - exact demo_db_fresh_token.
  - reflexivity.
Defined.

Lemma register_then_token_resolves_witness :
  ∃ u, resolves (Some "tok-9") (register demo_sha demo_env "tok-9" grace demo_db).2 u ∧
       u_email u = Some "grace@example.org" ∧
       u_is_admin u = Some false ∧
       u_sessions u = ["tok-9"].
Proof.
  apply (register_then_token_resolves demo_sha demo_env "tok-9" grace demo_db
           (grace_response "tok-9" false)).
  - exact wf_demo_db.
  - discriminate.
  - exact demo_db_fresh_token.
  - reflexivity.
Defined.

Lemma register_then_login_witness :
  ∃ db'',
    login demo_sha demo_env "tok-10"
      {| login_email := "grace@example.org"; login_password := "pw-g" |}
      (register demo_sha demo_env "tok-9" grace demo_db).2
    = (Return (grace_response "tok-10" false), db'').
Proof.
  apply (register_then_login demo_sha demo_env "tok-9" grace demo_db
           (grace_response "tok-9" false)).
  - exact wf_demo_db.
  - reflexivity.
Defined.

Lemma login_then_logout_witness :
  logout (Some "tok-9") (login demo_sha demo_env "tok-9" alice_login demo_db).2
  = (Return {[ "success" := VBool true ]}, demo_db).
Proof.
  apply (login_then_logout demo_sha demo_env "tok-9" alice_login demo_db
           (alice_response "tok-9")).
  - exact wf_demo_db.
  - discriminate.
  - exact demo_db_fresh_token.
  - reflexivity.
Defined.

Lemma logout_then_token_invalid_witness :
  (∀ v, v ∈ user (logout (Some "tok-b1") demo_db).2 → ¬ holds v "tok-b1") ∧
  require_auth (Some "tok-b1") (logout (Some "tok-b1") demo_db).2
  = (Raise (HTTPException 401 "Invalid token"), (logout (Some "tok-b1") demo_db).2).
Proof.
  apply (logout_then_token_invalid "tok-b1" demo_db bob [alice] [carol]).
  - exact wf_demo_db.
  - discriminate.
  - split; [reflexivity|]. split; [left|].
    repeat constructor. unfold holds. simpl. not_listed.
  - intros v Hv. apply list_elem_of_singleton in Hv as ->.
    unfold holds. simpl. not_listed.
Defined.

Lemma first_registrant_is_let_through_witness :
  resp_is_admin (grace_response "tok-1" true) = true ∧
  status_of (create_club go_club (Some "tok-1") first_db).1 = 200 ∧
  status_of (create_event chess_night (Some "tok-1") first_db).1 = 200.
Proof.
  apply (first_registrant_is_let_through demo_sha demo_env "tok-1" grace empty_db
           (grace_response "tok-1" true) first_db go_club chess_night).
  - exact wf_empty_db.
  - reflexivity.
  - discriminate.
  - reflexivity.
Defined.

Lemma later_registrant_is_denied_witness :
  resp_is_admin (grace_response "tok-9" false) = false ∧
  create_club go_club (Some "tok-9") (register demo_sha demo_env "tok-9" grace demo_db).2
  = (Raise (HTTPException 403 "Admin only"),
     (register demo_sha demo_env "tok-9" grace demo_db).2) ∧
  create_event chess_night (Some "tok-9")
    (register demo_sha demo_env "tok-9" grace demo_db).2
  = (Raise (HTTPException 403 "Admin only"),
     (register demo_sha demo_env "tok-9" grace demo_db).2).
Proof.
  apply (later_registrant_is_denied demo_sha demo_env "tok-9" grace demo_db
           (grace_response "tok-9" false)).
  - exact wf_demo_db.
  - discriminate.
  - discriminate.
  - exact demo_db_fresh_token.
  - reflexivity.
Defined.

Lemma test_database_without_database_witness :
  test_database demo_env None
  = Return ({[ "database" := VStr "❌ Not Available";
               "database_url" := VStr "❌ Not Set";
               "database_name" := VNone;
               "connection_status" := VStr "Not Connected";
               "collections" := VList [] ]}
            ∪ {[ "backend" := VStr "✅ Running" ]}).
Proof.
  apply (test_database_without_database demo_env None). reflexivity.
Defined.

Lemma test_database_connected_witness :
  test_database demo_env (Some working_handle)
  = Return ({[ "database" := VStr "✅ Connected & Working";
               "database_url" := VStr "❌ Not Set";
               "database_name" := VStr "clubs";
               "connection_status" := VStr "Connected";
               "collections" :=
                 VList ["c01"; "c02"; "c03"; "c04"; "c05";
                        "c06"; "c07"; "c08"; "c09"; "c10"] ]}
            ∪ {[ "backend" := VStr "✅ Running" ]}).
Proof.
  apply (test_database_connected demo_env working_handle
           ["c01"; "c02"; "c03"; "c04"; "c05"; "c06";
            "c07"; "c08"; "c09"; "c10"; "c11"; "c12"] "clubs");
    reflexivity.
Defined.
